(** * linkedin_scraper.py: the record-generation and export pipeline

    A shallow embedding of [LinkedInScraper] (src/linkedin_scraper.py) and of
    the script's [__main__] block, with the properties of the pipeline
    proved over it.

    Conventions of the embedding:
    - a Python [str] is a [string] (a sequence of 8-bit characters; the
      identifiers handled by the script are ASCII URLs).  Every such text
      can be encoded as UTF-8: a [str] that cannot (one with a lone
      surrogate), and the error it raises when written to a file, are
      outside the embedding;
    - a Python [dict] is an insertion-ordered association list from keys to
      values ([pyval]); the order of the keys is what [csv.DictWriter]
      receives as [fieldnames];
    - a Python [float] is an IEEE 754 double ([pyfloat]): a finite double is
      the rational it denotes, every operation rounds to the nearest double,
      ties to even, and overflows to an infinity; the sign of zero is not
      tracked;
    - the object's attributes, the lines handed to the log handlers, the files
      on disk and the standard output are fields of one [state]; methods are
      functions from an environment and a state to a result (a value or a
      raised exception) and a new state;
    - the file [scraper.log] that [__init__] opens (and fails on when it
      cannot) is an entry of the disk; its lines are the log of the state,
      which every logging call extends, so statements about the files an
      operation leaves alone exclude [scraper.log];
    - a CSV file holds texts: the header and the rows of cells the writer
      made of the values, integers in decimal;
    - random draws, the clock, disk faults and the presence of the [requests]
      package come from an explicit environment ([env]). *)

From Stdlib Require Import ZArith QArith Qabs Qreduction Ascii String List Lia Lqa.
From Stdlib Require Import DecimalString.
From stdpp Require Import base option list strings gmap.

Local Open Scope string_scope.
Local Open Scope list_scope.

(** ** Python strings *)

Module PyStr.

(** [s.startswith(p)] *)
Fixpoint startswith (s p : string) {struct p} : bool :=
  match p with
  | EmptyString => true
  | String a p' =>
      match s with
      | EmptyString => false
      | String b s' => if Ascii.eqb a b then startswith s' p' else false
      end
  end.

(** [s[n:]] *)
Fixpoint drop (n : nat) (s : string) : string :=
  match n with
  | O => s
  | S n' => match s with
            | EmptyString => EmptyString
            | String _ s' => drop n' s'
            end
  end.

(** [s.partition(sep)] for a separator that occurs in [s]: the text before
    the first occurrence and the text after it; [None] when [sep] does not
    occur (Python then returns [(s, '', '')]). *)
Fixpoint partition (s sep : string) : option (string * string) :=
  if startswith s sep then Some (EmptyString, drop (String.length sep) s)
  else match s with
       | EmptyString => None
       | String c s' =>
           match partition s' sep with
           | Some (b, a) => Some (String c b, a)
           | None => None
           end
       end.

(** [s.rpartition(sep)]: the same around the last occurrence. *)
Fixpoint rpartition (s sep : string) : option (string * string) :=
  match s with
  | EmptyString =>
      if startswith s sep then Some (EmptyString, EmptyString) else None
  | String c s' =>
      match rpartition s' sep with
      | Some (b, a) => Some (String c b, a)
      | None =>
          if startswith s sep
          then Some (EmptyString, drop (String.length sep) s)
          else None
      end
  end.

(** [sep in s] *)
Definition contains (s sep : string) : bool :=
  match partition s sep with Some _ => true | None => false end.

(** [s.split(sep)] for a non-empty [sep]: cut at the first occurrence, then
    split what follows it.  Every cut consumes at least one character, so
    [String.length s] rounds are enough ([split_unfold] below).  Python
    raises [ValueError] for an empty separator; the script only passes the
    literal ['/in/']. *)
Fixpoint split_fuel (fuel : nat) (s sep : string) : list string :=
  match fuel with
  | O => [s]
  | S fuel' =>
      match partition s sep with
      | None => [s]
      | Some (b, a) => b :: split_fuel fuel' a sep
      end
  end.

Definition split (s sep : string) : list string :=
  split_fuel (String.length s) s sep.

(** [s.rstrip(c)] for a single character [c] *)
Fixpoint rstrip (s : string) (c : ascii) : string :=
  match s with
  | EmptyString => EmptyString
  | String a s' =>
      match rstrip s' c with
      | EmptyString => if Ascii.eqb a c then EmptyString
                       else String a EmptyString
      | r => String a r
      end
  end.

(** [s.endswith(p)] *)
Definition endswith (s p : string) : bool :=
  String.eqb (drop (String.length s - String.length p) s) p
  && (String.length p <=? String.length s)%nat.

Definition is_upper (c : ascii) : bool :=
  let n := nat_of_ascii c in (65 <=? n)%nat && (n <=? 90)%nat.
Definition is_lower (c : ascii) : bool :=
  let n := nat_of_ascii c in (97 <=? n)%nat && (n <=? 122)%nat.
Definition to_upper (c : ascii) : ascii :=
  if is_lower c then ascii_of_nat (nat_of_ascii c - 32) else c.
Definition to_lower (c : ascii) : ascii :=
  if is_upper c then ascii_of_nat (nat_of_ascii c + 32) else c.

(** [s.title()] on ASCII text: a letter that follows a letter is
    lower-cased, any other letter is upper-cased, the rest is kept.  Letters
    outside ASCII, which Python cases as well, are kept as they are; no
    property below depends on the casing. *)
Fixpoint title_from (previous_is_cased : bool) (s : string) : string :=
  match s with
  | EmptyString => EmptyString
  | String c s' =>
      if is_lower c || is_upper c
      then String (if previous_is_cased then to_lower c else to_upper c)
                  (title_from true s')
      else String c (title_from false s')
  end.

Definition title (s : string) : string := title_from false s.

(** [c * n] *)
Fixpoint repeat_char (c : ascii) (n : nat) : string :=
  match n with
  | O => EmptyString
  | S n' => String c (repeat_char c n')
  end.

(** [l[-1]] on the result of [split], which is never empty *)
Definition last_piece (l : list string) : string := List.last l EmptyString.

End PyStr.

(** The extraction on line 129:
    [username = profile_url.split('/in/')[-1].rstrip('/')]. *)
Definition marker : string := "/in/".

Definition extract_username (profile_url : string) : string :=
  PyStr.rstrip (PyStr.last_piece (PyStr.split profile_url marker)) "/"%char.

(** The derived key as the specification words it: the text after the last
    occurrence of the marker with the trailing separators trimmed, and the
    whole identifier when the marker is absent. *)
Definition spec_derived_key (identifier : string) : string :=
  match PyStr.rpartition identifier marker with
  | Some (_, after) => PyStr.rstrip after "/"%char
  | None => identifier
  end.

(** ** Python floats *)

Inductive pyfloat : Type :=
  | FFinite (q : Q)          (* a finite double, in lowest terms *)
  | FInf (negative : bool)   (* [inf] and [-inf] *)
  | FNaN.

(** [p / d] rounded to the nearest integer, ties to the even one. *)
Definition rne (p d : Z) : Z :=
  let k := (p / d)%Z in
  match (2 * (p mod d) ?= d)%Z with
  | Lt => k
  | Gt => (k + 1)%Z
  | Eq => if Z.even k then k else (k + 1)%Z
  end.

(** The double nearest to [n / d >= 0], counted in units of [2^-1074], the
    smallest positive double.  Below [2^53] units the doubles are the
    integers; above, they have 53 significant bits. *)
Definition round_scaled (n d : Z) : Z :=
  let p := (n * 2 ^ 1074)%Z in
  let k := (p / d)%Z in
  if (k <? 2 ^ 53)%Z then rne p d
  else let sh := (Z.log2 k - 52)%Z in (rne p (d * 2 ^ sh) * 2 ^ sh)%Z.

(** Rounding of a real result to a double: to nearest, ties to even; a
    result of [2^1024] or more after rounding is an infinity. *)
Definition round_double (q : Q) : pyfloat :=
  let q' := Qred q in
  let v := round_scaled (Z.abs (Qnum q')) (Zpos (Qden q')) in
  if (2 ^ 2098 <=? v)%Z then FInf (Qnum q' <? 0)%Z
  else FFinite (Qred ((Z.sgn (Qnum q') * v) # (2 ^ 1074))).

(** [x + y], [-x], [x - y] and [x * y] on floats; they never raise. *)
Definition fadd (x y : pyfloat) : pyfloat :=
  match x, y with
  | FNaN, _ | _, FNaN => FNaN
  | FInf a, FInf b => if Bool.eqb a b then FInf a else FNaN
  | FInf a, FFinite _ | FFinite _, FInf a => FInf a
  | FFinite a, FFinite b => round_double (a + b)
  end.

Definition fneg (x : pyfloat) : pyfloat :=
  match x with
  | FFinite a => FFinite (Qred (- a))
  | FInf a => FInf (negb a)
  | FNaN => FNaN
  end.

Definition fsub (x y : pyfloat) : pyfloat := fadd x (fneg y).

Definition fmul (x y : pyfloat) : pyfloat :=
  match x, y with
  | FNaN, _ | _, FNaN => FNaN
  | FInf a, FInf b => FInf (xorb a b)
  | FInf a, FFinite b | FFinite b, FInf a =>
      if Qeq_bool b 0 then FNaN else FInf (xorb a (Qnum b <? 0)%Z)
  | FFinite a, FFinite b => round_double (a * b)
  end.

(** [x / y] on floats, for a divisor other than zero (on a zero divisor
    Python raises [ZeroDivisionError] instead of dividing). *)
Definition fdiv (x y : pyfloat) : pyfloat :=
  match x, y with
  | FNaN, _ | _, FNaN => FNaN
  | FInf _, FInf _ => FNaN
  | FInf a, FFinite b => FInf (xorb a (Qnum b <? 0)%Z)
  | FFinite _, FInf _ => FFinite 0
  | FFinite a, FFinite b => round_double (a / b)
  end.

(** The integer a double is rounded to, away from zero. *)
Definition round_away (q : Q) : Z :=
  if (0 <=? Qnum q)%Z then (- ((- Qnum q) / Zpos (Qden q)))%Z
  else (Qnum q / Zpos (Qden q))%Z.

(** A whole number, as a float (exact below [2^53]). *)
Definition whole (n : Z) : pyfloat := FFinite (n # 1).

(** ** Python values, dictionaries and exceptions *)

Inductive pyval : Type :=
  | VStr (s : string)
  | VInt (n : Z)
  | VFloat (x : pyfloat).

(** A [dict] keeps its keys in insertion order. *)
Definition dict : Type := list (string * pyval).

(** [d.get(k)]: [None] when the key is missing *)
Fixpoint dict_get (d : dict) (k : string) : option pyval :=
  match d with
  | [] => None
  | (k', v) :: d' => if String.eqb k' k then Some v else dict_get d' k
  end.

(** [list(d.keys())] *)
Definition dict_keys (d : dict) : list string := map fst d.

Inductive exn : Type :=
  | ValueError (msg : string)
  | TypeError (msg : string)
  | KeyError (key : string)
  | IndexError (msg : string)
  | ZeroDivisionError (msg : string)
  | OverflowError (msg : string)
  | OSError (path : string)
  | SystemExit (code : Z).   (* raised by [exit]; not an [Exception] *)

Inductive result (A : Type) : Type :=
  | Ok (a : A)
  | Raise (e : exn).
Arguments Ok {A} a.
Arguments Raise {A} e.

(** Truth value of [d.get(k)]: a missing key gives [None], which is false. *)
Definition truthy (v : option pyval) : bool :=
  match v with
  | None => false
  | Some (VStr s) => negb (String.eqb s EmptyString)
  | Some (VInt n) => negb (n =? 0)%Z
  | Some (VFloat (FFinite q)) => negb (Qeq_bool q 0)
  | Some (VFloat _) => true
  end.

(** [float(n)] for an integer: the nearest double, [OverflowError] when
    there is none. *)
Definition float_of_int (n : Z) : result pyfloat :=
  match round_double (inject_Z n) with
  | FInf _ => Raise (OverflowError "int too large to convert to float")
  | x => Ok x
  end.

(** [x + y]: integers add exactly; an integer meeting a float is converted
    first. *)
Definition py_add (x y : pyval) : result pyval :=
  match x, y with
  | VInt a, VInt b => Ok (VInt (a + b))
  | VInt a, VFloat b =>
      match float_of_int a with
      | Ok a' => Ok (VFloat (fadd a' b))
      | Raise e => Raise e
      end
  | VFloat a, VInt b =>
      match float_of_int b with
      | Ok b' => Ok (VFloat (fadd a b'))
      | Raise e => Raise e
      end
  | VFloat a, VFloat b => Ok (VFloat (fadd a b))
  | _, _ => Raise (TypeError "unsupported operand type(s) for +")
  end.

(** [sum(values)]: starts from the integer [0] and adds from the left.
    Integers, the case of the records the script builds, add exactly; floats
    add with one rounding per step, which is what CPython does up to 3.11
    (later versions compensate the rounding errors of a float sum). *)
Fixpoint py_sum_from (acc : pyval) (values : list pyval) : result pyval :=
  match values with
  | [] => Ok acc
  | v :: rest =>
      match py_add acc v with
      | Ok acc' => py_sum_from acc' rest
      | Raise e => Raise e
      end
  end.

Definition py_sum (values : list pyval) : result pyval :=
  py_sum_from (VInt 0) values.

(** [x / n] for a length [n]: true division.  The quotient of two integers
    is the double nearest to the exact quotient, and [OverflowError] when
    that is out of range; a float is divided by [float(n)]. *)
Definition py_truediv (x : pyval) (n : nat) : result pyval :=
  match n with
  | O => Raise (ZeroDivisionError "division by zero")
  | S _ =>
      match x with
      | VInt a =>
          match round_double (a # Pos.of_nat n) with
          | FInf _ =>
              Raise (OverflowError "integer division result too large for a float")
          | q => Ok (VFloat q)
          end
      | VFloat q =>
          match float_of_int (Z.of_nat n) with
          | Ok d => Ok (VFloat (fdiv q d))
          | Raise e => Raise e
          end
      | VStr _ => Raise (TypeError "unsupported operand type(s) for /")
      end
  end.

(** ** The environment: randomness, clock and disk *)

(** What one call of [simulate_profile_data] reads from outside: the bits
    behind [random.random()], the raw draws behind the two [random.randint]
    calls and the text of [datetime.now().isoformat()]. *)
Record draw : Type := mkDraw {
  random_bits : Z;
  connections_raw : Z;
  endorsements_raw : Z;
  now_isoformat : string
}.

(** What happens when a path is opened for writing. *)
Inductive io_outcome : Type :=
  | IoOk
  | IoOpenFails      (* [open] raises; the disk is left as it was *)
  | IoWriteFails.    (* the file is created or truncated, then the write raises *)

Record env : Type := mkEnv {
  draws : nat -> draw;
  disk : string -> io_outcome;
  requests_installed : bool   (* whether [import requests] succeeds *)
}.

(** [random.random()]: 53 random bits scaled into [0, 1), a double. *)
Definition random_random (d : draw) : pyfloat :=
  FFinite (Qred ((random_bits d mod 2 ^ 53)%Z # (2 ^ 53))).

(** [random.uniform(a, b)] is [a + (b - a) * self.random()], in floats. *)
Definition random_uniform (a b : pyfloat) (d : draw) : pyfloat :=
  fadd a (fmul (fsub b a) (random_random d)).

(** [random.randint(a, b)]: an integer of [a..b] (for [a <= b]). *)
Definition random_randint (a b raw : Z) : Z :=
  (a + raw mod (b - a + 1))%Z.

(** ** The state: the object, the log, the disk and the standard output *)

Inductive level : Type := INFO | WARNING | ERROR.

(** One constructor per message of the source; the arguments are the values
    its f-string interpolates. *)
Inductive logmsg : Type :=
  | MsgInitialized                          (* 'LinkedInScraper initialized' *)
  | MsgRateLimiting (delay : pyfloat)       (* 'Rate limiting: waiting {delay:.2f} seconds' *)
  | MsgProcessing (profile_url : string)    (* 'Processing: {profile_url}' *)
  | MsgProcessed (username : string)        (* 'Successfully processed: {username}' *)
  | MsgErrorProcessing (profile_url : string) (e : exn)
                                            (* 'Error processing {profile_url}: {str(e)}' *)
  | MsgStarting (n : nat)                   (* 'Starting to scrape {len(profile_urls)} profiles' *)
  | MsgComplete (n : nat)                   (* 'Scraping complete. Total profiles: {len(self.profiles)}' *)
  | MsgNothingToSave                        (* 'No profiles to save' *)
  | MsgSaved (path : string)                (* 'Profiles saved to {path}' *)
  | MsgErrorCsv (e : exn)                   (* 'Error saving to CSV: {str(e)}' *)
  | MsgErrorJson (e : exn).                 (* 'Error saving to JSON: {str(e)}' *)

(** The text of a CSV cell: texts are written as they are and integers in
    decimal; of a float the writer takes [repr], which is kept as the float. *)
Inductive csv_cell : Type :=
  | CellText (text : string)
  | CellRepr (x : pyfloat).

(** What a file holds, as the document that was written to it: the cells of
    a CSV file are texts, a JSON file keeps texts and numbers apart. *)
Inductive file_content : Type :=
  | CsvDocument (header : list string) (rows : list (list csv_cell))
  | JsonDocument (records : list dict)
  | PartialDocument    (* created or truncated by a write that failed *)
  | LogFile.           (* [scraper.log]; its lines are the log of the state *)

(** The lines [__main__] prints. *)
Inductive outline : Type :=
  | OutBanner                               (* '\n=== Scraping Statistics ===' *)
  | OutTotal (v : pyval)                    (* 'Total Profiles Scraped: {...}' *)
  | OutAverage (v : pyval)                  (* 'Average Connections: {...:.2f}' *)
  | OutSavedTo                              (* '\nResults saved to:' *)
  | OutCsv (path : option string)           (* '  CSV: {csv_file}' *)
  | OutJson (path : option string)          (* '  JSON: {json_file}' *)
  | OutNoteSimulated                        (* '\nNote: This is simulated data ...' *)
  | OutNoteToS                              (* 'Actual LinkedIn scraping violates their ToS.' *)
  | OutInstallHint.                         (* 'Please install required packages: ...' *)

Record state : Type := mkState {
  output_csv : string;            (* self.output_csv *)
  min_delay : pyfloat;            (* self.min_delay *)
  max_delay : pyfloat;            (* self.max_delay *)
  profiles : list dict;           (* self.profiles *)
  calls : nat;                    (* draws taken from the environment so far *)
  log : list (level * logmsg);    (* the lines handed to the handlers, oldest first *)
  files : gmap string file_content;
  stdout : list outline
}.

Definition set_profiles (ps : list dict) (s : state) : state :=
  mkState (output_csv s) (min_delay s) (max_delay s) ps
          (calls s) (log s) (files s) (stdout s).
Definition set_calls (n : nat) (s : state) : state :=
  mkState (output_csv s) (min_delay s) (max_delay s) (profiles s)
          n (log s) (files s) (stdout s).
Definition set_log (l : list (level * logmsg)) (s : state) : state :=
  mkState (output_csv s) (min_delay s) (max_delay s) (profiles s)
          (calls s) l (files s) (stdout s).
Definition set_files (f : gmap string file_content) (s : state) : state :=
  mkState (output_csv s) (min_delay s) (max_delay s) (profiles s)
          (calls s) (log s) f (stdout s).
Definition set_stdout (o : list outline) (s : state) : state :=
  mkState (output_csv s) (min_delay s) (max_delay s) (profiles s)
          (calls s) (log s) (files s) o.

(** ** Methods as state transformers that may raise *)

Definition M (A : Type) : Type := env -> state -> result A * state.

Definition ret {A} (a : A) : M A := fun _ s => (Ok a, s).
Definition raise {A} (e : exn) : M A := fun _ s => (Raise e, s).
Definition bind {A B} (m : M A) (k : A -> M B) : M B :=
  fun w s =>
    match m w s with
    | (Ok a, s') => k a w s'
    | (Raise e, s') => (Raise e, s')
    end.

Notation "'let!' x ':=' m 'in' k" := (bind m (fun x => k))
  (at level 10, x pattern, m at level 100, k at level 200).
Notation "m ';;' k" := (bind m (fun _ => k))
  (at level 100, k at level 200, right associativity).

(** [try: body  except Exception as e: handler(e)].  What [body] did to the
    state before it raised stays done. *)
Definition try_except {A} (body : M A) (handler : exn -> M A) : M A :=
  fun w s =>
    match body w s with
    | (Ok a, s') => (Ok a, s')
    | (Raise e, s') => handler e w s'
    end.

Definition gets {A} (f : state -> A) : M A := fun _ s => (Ok (f s), s).
Definition modify (f : state -> state) : M unit := fun _ s => (Ok tt, f s).
Definition lift {A} (r : result A) : M A := fun _ s => (r, s).

(** [self.logger.<level>(msg)]: the line goes to the handlers, which append
    it to [scraper.log] and print it on the error stream.  Python's logging
    handlers swallow their own errors, so the call returns normally. *)
Definition logger (lv : level) (msg : logmsg) : M unit :=
  modify (fun s => set_log (log s ++ [(lv, msg)]) s).

(** [print(line)] *)
Definition print (line : outline) : M unit :=
  modify (fun s => set_stdout (stdout s ++ [line]) s).

(** The next draw of the environment. *)
Definition next_draw : M draw :=
  fun w s => (Ok (draws w (calls s)), set_calls (S (calls s)) s).

(** [time.sleep(secs)] for a float.  CPython rejects a NaN, converts the
    length to a number of nanoseconds ([secs * 1e9] as a float, rounded away
    from zero), raises [OverflowError] when that does not fit 64 bits, and
    [ValueError] when it is negative. *)
Definition sleep_error : exn := ValueError "sleep length must be non-negative".
Definition sleep_overflow : exn :=
  OverflowError "timestamp too large to convert to C _PyTime_t".

Definition sleep_outcome (secs : pyfloat) : option exn :=
  match secs with
  | FNaN => Some (ValueError "Invalid value NaN (not a number)")
  | FInf _ => Some sleep_overflow
  | FFinite _ =>
      match fmul secs (whole 1000000000) with
      | FFinite ns =>
          let t := round_away ns in
          if ((t <? - 2 ^ 63) || (2 ^ 63 <=? t))%Z then Some sleep_overflow
          else if (t <? 0)%Z then Some sleep_error
          else None
      | _ => Some sleep_overflow
      end
  end.

Definition time_sleep (secs : pyfloat) : M unit :=
  match sleep_outcome secs with
  | None => ret tt
  | Some e => raise e
  end.


(** ** The class [LinkedInScraper] *)

(** The dictionary literal of lines 132-145. *)
Definition profile_record (profile_url : string) (d : draw) : dict :=
  let username := extract_username profile_url in
  [ ("profile_url", VStr profile_url);
    ("username", VStr username);
    ("name", VStr ("Professional " +:+ PyStr.title username));
    ("title", VStr "Job Title Example");
    ("company", VStr "Company Example");
    ("location", VStr "City, Country");
    ("about", VStr "Professional summary example");
    ("skills", VStr "Python, Web Scraping, Data Analysis");
    ("connections", VInt (random_randint 100 5000 (connections_raw d)));
    ("endorsements", VInt (random_randint 0 500 (endorsements_raw d)));
    ("scraped_at", VStr (now_isoformat d));
    ("data_type", VStr "SIMULATED - FOR DEMONSTRATION ONLY") ].

(** [logging.FileHandler('scraper.log')] opens the file for appending at
    construction: the file exists afterwards, and [OSError] is raised when it
    cannot be opened. *)
Definition log_file : string := "scraper.log".

Definition open_log_file : M unit :=
  fun w s =>
    match disk w log_file with
    | IoOpenFails => (Raise (OSError log_file), s)
    | _ => (Ok tt, set_files (<[log_file := LogFile]> (files s)) s)
    end.

(** [__init__]: the attributes are set, the log file is opened (outside any
    [try]) and the first log line is written.  The process-level parts of
    the state (disk, standard output, draws taken) are kept. *)
Definition init (output_csv' : string) (min_delay' max_delay' : pyfloat)
  : M unit :=
  modify (fun s => mkState output_csv' min_delay' max_delay' []
                           (calls s) (log s) (files s) (stdout s)) ;;
  open_log_file ;;
  logger INFO MsgInitialized.

(** [simulate_profile_data], lines 120-153. *)
Definition simulate_profile_data (profile_url : string) : M (option dict) :=
  try_except
    (let! d := next_draw in
     let! lo := gets min_delay in
     let! hi := gets max_delay in
     let delay := random_uniform lo hi d in
     logger INFO (MsgRateLimiting delay) ;;
     time_sleep delay ;;
     logger INFO (MsgProcessing profile_url) ;;
     let username := extract_username profile_url in
     let profile_data := profile_record profile_url d in
     modify (fun s => set_profiles (profiles s ++ [profile_data]) s) ;;
     logger INFO (MsgProcessed username) ;;
     ret (Some profile_data))
    (fun e =>
       logger ERROR (MsgErrorProcessing profile_url e) ;;
       ret None).

(** The loop of lines 167-168; the value of each call is dropped. *)
Fixpoint for_each_url (profile_urls : list string) : M unit :=
  match profile_urls with
  | [] => ret tt
  | url :: rest => simulate_profile_data url ;; for_each_url rest
  end.

(** [scrape_profiles], lines 165-171.  The list it returns is
    [self.profiles] itself. *)
Definition scrape_profiles (profile_urls : list string) : M (list dict) :=
  logger INFO (MsgStarting (length profile_urls)) ;;
  for_each_url profile_urls ;;
  let! n := gets (fun s => length (profiles s)) in
  logger INFO (MsgComplete n) ;;
  gets profiles.

(** [open(path, 'w')] followed by writing [content] and closing the file. *)
Definition write_file (path : string) (content : file_content) : M unit :=
  fun w s =>
    match disk w path with
    | IoOk => (Ok tt, set_files (<[path := content]> (files s)) s)
    | IoOpenFails => (Raise (OSError path), s)
    | IoWriteFails =>
        (Raise (OSError path), set_files (<[path := PartialDocument]> (files s)) s)
    end.

(** [str(n)] for an integer *)
Definition str_of_int (n : Z) : string := NilEmpty.string_of_int (Z.to_int n).

(** The cell the writer makes of a value. *)
Definition csv_cell_of (v : pyval) : csv_cell :=
  match v with
  | VStr s => CellText s
  | VInt n => CellText (str_of_int n)
  | VFloat x => CellRepr x
  end.

(** The row [csv.DictWriter] builds from a dictionary: the values in
    [fieldnames] order, [''] for a missing key. *)
Definition dict_to_list (fieldnames : list string) (d : dict) : list csv_cell :=
  map (fun k => csv_cell_of (default (VStr EmptyString) (dict_get d k)))
      fieldnames.

Definition known_field (fieldnames : list string) (k : string) : bool :=
  existsb (String.eqb k) fieldnames.

(** [writer.writerows(rows)]: rows are written one by one; a dictionary with
    a key outside [fieldnames] raises [ValueError] after the rows before it
    were written. *)
Fixpoint writerows (fieldnames : list string) (rows : list dict)
  : list (list csv_cell) * option exn :=
  match rows with
  | [] => ([], None)
  | d :: rest =>
      if forallb (known_field fieldnames) (dict_keys d)
      then let (written, failure) := writerows fieldnames rest in
           (dict_to_list fieldnames d :: written, failure)
      else ([], Some (ValueError "dict contains fields not in fieldnames"))
  end.

(** [save_to_csv], lines 180-197. *)
Definition save_to_csv : M (option string) :=
  let! ps := gets profiles in
  match ps with
  | [] => logger WARNING MsgNothingToSave ;; ret None
  | _ :: _ =>
      try_except
        (let! fieldnames :=
           match ps with
           | [] => raise (IndexError "list index out of range")
           | first :: _ => ret (dict_keys first)
           end in
         let! path := gets output_csv in
         let (written, failure) := writerows fieldnames ps in
         write_file path (CsvDocument fieldnames written) ;;
         match failure with
         | Some e => raise e
         | None => logger INFO (MsgSaved path) ;; ret (Some path)
         end)
        (fun e => logger ERROR (MsgErrorCsv e) ;; ret None)
  end.

(** [save_to_json], lines 209-222. *)
Definition save_to_json (filename : string) : M (option string) :=
  let! ps := gets profiles in
  match ps with
  | [] => logger WARNING MsgNothingToSave ;; ret None
  | _ :: _ =>
      try_except
        (write_file filename (JsonDocument ps) ;;
         logger INFO (MsgSaved filename) ;;
         ret (Some filename))
        (fun e => logger ERROR (MsgErrorJson e) ;; ret None)
  end.

Definition default_json_filename : string := "profiles.json".

(** [p.get('connections', 0)] *)
Definition get_connections (p : dict) : pyval :=
  default (VInt 0) (dict_get p "connections").

(** [len([p for p in self.profiles if p.get('skills')])] *)
Definition count_skills (ps : list dict) : nat :=
  length (filter (fun p => truthy (dict_get p "skills") = true) ps).

(** [get_stats], lines 226-233. *)
Definition get_stats : M dict :=
  let! ps := gets profiles in
  match ps with
  | [] => ret [("total_profiles", VInt 0)]
  | _ :: _ =>
      let! total := lift (py_sum (map get_connections ps)) in
      let! average := lift (py_truediv total (length ps)) in
      ret [ ("total_profiles", VInt (Z.of_nat (length ps)));
            ("average_connections", average);
            ("total_skills_fields", VInt (Z.of_nat (count_skills ps))) ]
  end.

(** ** The script's [__main__] block *)

Definition sample_profiles : list string :=
  [ "linkedin.com/in/sample-profile-1"; "linkedin.com/in/sample-profile-2";
    "linkedin.com/in/sample-profile-3"; "linkedin.com/in/sample-profile-4";
    "linkedin.com/in/sample-profile-5"; "linkedin.com/in/sample-profile-6";
    "linkedin.com/in/sample-profile-7"; "linkedin.com/in/sample-profile-8";
    "linkedin.com/in/sample-profile-9"; "linkedin.com/in/sample-profile-10";
    "linkedin.com/in/sample-profile-11"; "linkedin.com/in/sample-profile-12";
    "linkedin.com/in/sample-profile-13"; "linkedin.com/in/sample-profile-14";
    "linkedin.com/in/sample-profile-15"; "linkedin.com/in/sample-profile-16";
    "linkedin.com/in/sample-profile-17"; "linkedin.com/in/sample-profile-18";
    "linkedin.com/in/sample-profile-19"; "linkedin.com/in/sample-profile-20" ].

(** [d[k]] raises [KeyError] for a missing key. *)
Definition dict_getitem (d : dict) (k : string) : M pyval :=
  match dict_get d k with
  | Some v => ret v
  | None => raise (KeyError k)
  end.

(** The format specification [:.2f] accepts numbers only. *)
Definition format_2f (v : pyval) : M pyval :=
  match v with
  | VStr _ => raise (ValueError "Unknown format code 'f' for object of type 'str'")
  | _ => ret v
  end.

(** The summary of lines 273-280. *)
Definition print_summary (stats : dict) (csv_file json_file : option string)
  : M unit :=
  print OutBanner ;;
  let! total := dict_getitem stats "total_profiles" in
  print (OutTotal total) ;;
  let! average := dict_getitem stats "average_connections" in
  let! average := format_2f average in
  print (OutAverage average) ;;
  print OutSavedTo ;;
  print (OutCsv csv_file) ;;
  print (OutJson json_file) ;;
  print OutNoteSimulated ;;
  print OutNoteToS.

(** The guard of lines 21-27: without the [requests] package the script
    prints a hint and exits with status 1. *)
Definition import_requests : M unit :=
  fun w s =>
    if requests_installed w then (Ok tt, s)
    else (print OutInstallHint ;; raise (SystemExit 1)) w s.

(** The script, with lines 262-280 as a function of the list bound to
    [sample_profiles] (the script asks for it to be replaced by the profiles
    to process).  The default delays of [__init__] are 2.0 and 5.0. *)
Definition main (urls : list string) : M unit :=
  import_requests ;;
  init "profiles.csv" (whole 2) (whole 5) ;;
  let! _profiles := scrape_profiles urls in
  let! csv_file := save_to_csv in
  let! json_file := save_to_json default_json_filename in
  let! stats := get_stats in
  print_summary stats csv_file json_file.

(** An uncaught exception ends the process with status 1, [exit(code)] with
    its code. *)
Definition exit_status {A} (r : result A) : Z :=
  match r with
  | Ok _ => 0
  | Raise (SystemExit code) => code
  | Raise _ => 1
  end.

(** The process before [__main__] runs, over a given disk. *)
Definition boot (disk0 : gmap string file_content) : state :=
  mkState EmptyString (whole 0) (whole 0) [] 0 [] disk0 [].

(** ** Reading a run *)

(** The delay the next call of [simulate_profile_data] draws. *)
Definition next_delay (w : env) (s : state) : pyfloat :=
  random_uniform (min_delay s) (max_delay s) (draws w (calls s)).

(** The values returned by the calls of [simulate_profile_data] that the
    loop of [scrape_profiles] makes, in call order. *)
Fixpoint outcomes (urls : list string) (w : env) (s : state)
  : list (option dict) :=
  match urls with
  | [] => []
  | url :: rest =>
      match simulate_profile_data url w s with
      | (Ok r, s') => r :: outcomes rest w s'
      | (Raise _, _) => []
      end
  end.

Definition is_some {A} (o : option A) : bool :=
  match o with Some _ => true | None => false end.

(** No call of the run signalled a failure. *)
Definition no_failure (urls : list string) (w : env) (s : state) : bool :=
  forallb is_some (outcomes urls w s).

(** The records among a list of outcomes. *)
Definition successes (os : list (option dict)) : list dict :=
  omap id os.

(** The fields of a record that the statistics read. *)
Definition primary_metric (p : dict) : Z :=
  match dict_get p "connections" with
  | Some (VInt n) => n
  | _ => 0%Z
  end.

Definition tags_nonempty (p : dict) : bool :=
  match dict_get p "skills" with
  | Some (VStr s) => negb (String.eqb s EmptyString)
  | _ => false
  end.

(** A dictionary with the two fields typed as [simulate_profile_data] writes
    them: an integer [connections] and a text [skills]. *)
Definition record_shaped (p : dict) : bool :=
  match dict_get p "connections", dict_get p "skills" with
  | Some (VInt _), Some (VStr _) => true
  | _, _ => false
  end.

(** The sum and the arithmetic mean of the primary metric. *)
Definition total_primary_metric (ps : list dict) : Z :=
  fold_right Z.add 0%Z (map primary_metric ps).

Definition mean_primary_metric (ps : list dict) : Q :=
  inject_Z (total_primary_metric ps) / inject_Z (Z.of_nat (length ps)).

(** The operations of a scraper object, and the state each leaves. *)
Inductive operation : Type :=
  | OpSimulate (profile_url : string)
  | OpScrape (profile_urls : list string)
  | OpSaveCsv
  | OpSaveJson (filename : string)
  | OpGetStats.

Definition run_operation (o : operation) (w : env) (s : state) : state :=
  match o with
  | OpSimulate url => snd (simulate_profile_data url w s)
  | OpScrape urls => snd (scrape_profiles urls w s)
  | OpSaveCsv => snd (save_to_csv w s)
  | OpSaveJson filename => snd (save_to_json filename w s)
  | OpGetStats => snd (get_stats w s)
  end.

(** The state an export leaves when there is nothing to export. *)
Definition nothing_to_save (s : state) : state :=
  set_log (log s ++ [(WARNING, MsgNothingToSave)]) s.


(** Two records with primary metrics 100 and 300. *)
Definition two_records : list dict :=
  [ [("profile_url", VStr "a"); ("skills", VStr "Python");
     ("connections", VInt 100)];
    [("profile_url", VStr "b"); ("skills", VStr EmptyString);
     ("connections", VInt 300)] ].

(** An environment and a state to run examples in. *)
Definition demo_env : env :=
  mkEnv (fun k => mkDraw (Z.of_nat k * 7919 + 13) (Z.of_nat k * 104729 + 5)
                         (Z.of_nat k * 31 + 2) "2024-01-01T00:00:00")
        (fun _ => IoOk)
        true.

Definition demo_state : state :=
  mkState "profiles.csv" (whole 2) (whole 5) [] 0 [] ∅ [].

(** ** The request headers and the retry policy *)





(** [urllib3.util.retry.Retry], with the arguments the script passes. *)
Record retry : Type := mkRetry {
  retry_total : Z;
  status_forcelist : list Z;
  allowed_methods : list string;
  backoff_factor : Z
}.

(** [requests.adapters.HTTPAdapter(max_retries=...)] *)
Inductive adapter : Type :=
  | HTTPAdapter (max_retries : retry).

(** A [requests.Session], as the adapters mounted on it: [session.mount]
    stores the adapter under its prefix. *)
Definition session_mount (prefix : string) (a : adapter)
    (adapters : gmap string adapter) : gmap string adapter :=
  <[prefix := a]> adapters.

Definition retry_strategy : retry :=
  mkRetry 3 [429; 500; 502; 503; 504]%Z ["HEAD"; "GET"; "OPTIONS"] 1.

(** [add_rate_limiting], lines 96-105. *)
Definition add_rate_limiting (session : gmap string adapter)
  : gmap string adapter :=
  let adapter := HTTPAdapter retry_strategy in
  session_mount "https://" adapter (session_mount "http://" adapter session).

(** ** Reading a collection *)

(** The keys of the dictionary literal of lines 132-145, in source order. *)
Definition field_names : list string :=
  [ "profile_url"; "username"; "name"; "title"; "company"; "location";
    "about"; "skills"; "connections"; "endorsements"; "scraped_at";
    "data_type" ].

(** A record that [simulate_profile_data] built. *)
Definition simulated_record (r : dict) : Prop :=
  exists url d, r = profile_record url d.

(** The states of a scraper object: what [__init__] leaves, and what the
    operations make of it. *)
Inductive reachable (w : env) : state -> Prop :=
  | reachable_init (s : state) (path : string) (lo hi : pyfloat) :
      reachable w (snd (init path lo hi w s))
  | reachable_step (s : state) (o : operation) :
      reachable w s -> reachable w (run_operation o w s).

(** The number of error lines in a piece of log. *)
Definition is_error (entry : level * logmsg) : bool :=
  match fst entry with
  | ERROR => true
  | _ => false
  end.

Definition count_errors (entries : list (level * logmsg)) : nat :=
  length (List.filter is_error entries).

(** The file an operation may write. *)
Definition export_target (o : operation) (s : state) : option string :=
  match o with
  | OpSaveCsv => Some (output_csv s)
  | OpSaveJson filename => Some filename
  | _ => None
  end.

(** Records with an integer [connections] or none at all. *)
Definition connections_countable (p : dict) : bool :=
  match dict_get p "connections" with
  | Some (VInt _) | None => true
  | _ => false
  end.


(** Records whose [connections] is not a float: an integer, a text, or
    missing. *)
Definition connections_not_float (p : dict) : bool :=
  match dict_get p "connections" with
  | Some (VFloat _) => false
  | _ => true
  end.

(** The values of a record in the order of its keys, as CSV cells. *)
Definition record_cells (d : dict) : list csv_cell :=
  map (fun kv => csv_cell_of (snd kv)) d.

(** The process once [__main__] has built its scraper: the attributes are
    set, [scraper.log] exists and the first line is logged. *)
Definition started (disk0 : gmap string file_content) : state :=
  mkState "profiles.csv" (whole 2) (whole 5) [] 0 [(INFO, MsgInitialized)]
          (<[log_file := LogFile]> disk0) [].

(** * Properties *)

(** ** Facts about float rounding *)

Module FloatFacts.

Local Open Scope Z_scope.

Lemma rne_between (p d lo hi : Z) :
  0 < d -> lo * d <= p <= hi * d -> lo <= rne p d <= hi.
Proof.
  intros Hd [Hlo Hhi]. unfold rne.
  pose proof (Z.div_mod p d ltac:(lia)) as Hp.
  pose proof (Z.mod_pos_bound p d Hd) as Hr.
  set (k := p / d) in *. set (r := p mod d) in *.
  assert (Hk1 : lo <= k) by nia.
  assert (Hk2 : k <= hi) by nia.
  assert (Hup : 0 < r -> k + 1 <= hi) by (intros; nia).
  destruct (Z.compare_spec (2 * r) d) as [He | Hl | Hg].
  - destruct (Z.even k); [lia |]. split; [lia |]. apply Hup. lia.
  - lia.
  - split; [lia |]. apply Hup. lia.
Qed.

Lemma round_scaled_zero (d : Z) : 0 < d -> round_scaled 0 d = 0.
Proof.
  intros Hd. unfold round_scaled. rewrite Z.mul_0_l, Z.div_0_l by lia.
  change (0 <? 2 ^ 53) with true. cbv iota.
  pose proof (rne_between 0 d 0 0 Hd ltac:(lia)). lia.
Qed.

(** Rounding keeps a value between two doubles that enclose it: here the
    multiples [L * 2^T] and [H * 2^T] of a power of two, with [H] of at most
    53 bits. *)
Lemma round_scaled_between (n d T L H : Z) :
  0 < d -> 0 <= T -> 0 <= L -> H < 2 ^ 53 ->
  L * 2 ^ T * d <= n * 2 ^ 1074 <= H * 2 ^ T * d ->
  L * 2 ^ T <= round_scaled n d <= H * 2 ^ T.
Proof.
  intros Hd HT HL HH [Hlo Hhi]. unfold round_scaled.
  set (p := n * 2 ^ 1074) in *.
  assert (HpT : 0 < 2 ^ T) by (apply Z.pow_pos_nonneg; lia).
  destruct (Z.ltb_spec (p / d) (2 ^ 53)) as [Hsmall | Hbig].
  - apply rne_between; [exact Hd | lia].
  - set (k := p / d) in *.
    assert (Hk0 : 0 < k).
    { assert (0 < 2 ^ 53) by (apply Z.pow_pos_nonneg; lia). lia. }
    assert (Hlog : 53 <= Z.log2 k) by (apply Z.log2_le_pow2; lia).
    assert (HkH : k <= H * 2 ^ T).
    { apply Z.div_le_upper_bound; [exact Hd | lia]. }
    assert (HkT : k < 2 ^ (53 + T)).
    { rewrite Z.pow_add_r by lia. nia. }
    assert (Hlog2 : Z.log2 k < 53 + T) by (apply Z.log2_lt_pow2; lia).
    set (sh := Z.log2 k - 52) in *.
    assert (Hsh : 0 < sh <= T) by lia.
    assert (He : 0 < 2 ^ sh) by (apply Z.pow_pos_nonneg; lia).
    assert (Hc : 0 < 2 ^ (T - sh)) by (apply Z.pow_pos_nonneg; lia).
    assert (HTs : 2 ^ T = 2 ^ (T - sh) * 2 ^ sh).
    { rewrite <- Z.pow_add_r by lia. f_equal. lia. }
    set (e := 2 ^ sh) in *. set (c := 2 ^ (T - sh)) in *.
    pose proof (rne_between p (d * e) (L * c) (H * c) ltac:(nia)) as Hm.
    rewrite HTs in *.
    assert (Hm' : L * c <= rne p (d * e) <= H * c) by (apply Hm; nia).
    nia.
Qed.

Lemma round_scaled_ge1 (n d : Z) :
  0 < d -> d <= n * 2 ^ 1074 -> 1 <= round_scaled n d.
Proof.
  intros Hd Hn. unfold round_scaled. set (p := n * 2 ^ 1074) in *.
  pose proof (Z.div_mod p d ltac:(lia)) as Hp.
  pose proof (Z.mod_pos_bound p d Hd) as Hr.
  destruct (Z.ltb_spec (p / d) (2 ^ 53)) as [Hsmall | Hbig].
  - pose proof (rne_between p d 1 (p / d + 1) Hd ltac:(nia)). lia.
  - set (k := p / d) in *.
    assert (Hk0 : 0 < k).
    { assert (0 < 2 ^ 53) by (apply Z.pow_pos_nonneg; lia). lia. }
    assert (Hlog : 53 <= Z.log2 k) by (apply Z.log2_le_pow2; lia).
    set (sh := Z.log2 k - 52) in *.
    assert (He : 0 < 2 ^ sh) by (apply Z.pow_pos_nonneg; lia).
    assert (Hke : 2 ^ sh <= k).
    { transitivity (2 ^ Z.log2 k).
      - apply Z.pow_le_mono_r; lia.
      - apply Z.log2_spec; lia. }
    set (e := 2 ^ sh) in *.
    pose proof (Z.div_mod p (d * e) ltac:(nia)) as Hp2.
    pose proof (Z.mod_pos_bound p (d * e) ltac:(nia)) as Hr2.
    pose proof (rne_between p (d * e) 1 (p / (d * e) + 1) ltac:(nia)
                  ltac:(nia)).
    nia.
Qed.

Local Open Scope Q_scope.

Lemma pow_1074_pos : Zpos (2 ^ 1074) = (2 ^ 1074)%Z.
Proof. now rewrite Pos2Z.inj_pow. Qed.

Lemma round_double_canonical (q r : Q) :
  round_double q = FFinite r -> Qred r = r.
Proof.
  unfold round_double. destruct (_ <=? _)%Z; [discriminate |].
  intros [= <-]. apply Qred_complete, Qred_correct.
Qed.

(** The magnitude of a rounded value stays between two doubles that enclose
    the magnitude of the exact one, and rounding keeps the sign. *)
Lemma round_double_magnitude (q : Q) (L H t : Z) :
  (0 <= L)%Z -> (H < 2 ^ 53)%Z -> (0 <= t <= 971)%Z ->
  inject_Z (L * 2 ^ t) <= Qabs q -> Qabs q <= inject_Z (H * 2 ^ t) ->
  exists r,
    round_double q = FFinite r
    /\ inject_Z (L * 2 ^ t) <= Qabs r /\ Qabs r <= inject_Z (H * 2 ^ t)
    /\ (0 <= q -> 0 <= r) /\ (q <= 0 -> r <= 0).
Proof.
  intros HL HH Ht Hlo Hhi.
  assert (Hpos : 0 <= q -> 0 <= Qred q)
    by (intros Hq; now rewrite Qred_correct).
  assert (Hneg : q <= 0 -> Qred q <= 0)
    by (intros Hq; now rewrite Qred_correct).
  rewrite <- (Qred_correct q) in Hlo, Hhi.
  unfold round_double.
  destruct (Qred q) as [n d] eqn:Hq. cbn [Qnum Qden].
  unfold Qabs, Qle in Hlo, Hhi. cbn [Qnum Qden inject_Z] in Hlo, Hhi.
  rewrite Z.mul_1_r in Hlo, Hhi.
  assert (H2t : (0 < 2 ^ t)%Z) by (apply Z.pow_pos_nonneg; lia).
  assert (H2s : (0 < 2 ^ 1074)%Z) by (apply Z.pow_pos_nonneg; lia).
  pose proof (round_scaled_between (Z.abs n) (Zpos d) (t + 1074) L H
                ltac:(lia) ltac:(lia) HL HH) as Hv.
  rewrite Z.pow_add_r in Hv by lia.
  specialize (Hv ltac:(nia)).
  set (v := round_scaled (Z.abs n) (Zpos d)) in *.
  assert (Hfin : (v < 2 ^ 2098)%Z).
  { assert ((2 ^ 2098 = 2 ^ (971 - t) * 2 ^ t * 2 ^ 1074 * 2 ^ 53)%Z) as ->.
    { rewrite <- !Z.pow_add_r by lia. f_equal. lia. }
    assert ((0 < 2 ^ (971 - t))%Z) by (apply Z.pow_pos_nonneg; lia).
    nia. }
  destruct (Z.leb_spec (2 ^ 2098) v) as [Hbad | _]; [lia |].
  eexists. split; [reflexivity |].
  assert (Hv0 : (n = 0 -> v = 0)%Z).
  { intros ->. apply round_scaled_zero. lia. }
  rewrite !Qred_correct.
  unfold Qabs, Qle. cbn [Qnum Qden inject_Z].
  rewrite pow_1074_pos, !Z.mul_1_r.
  unfold Qle in Hpos, Hneg. cbn [Qnum Qden] in Hpos, Hneg.
  destruct (Z.sgn_spec n) as [[Hn ->] | [[Hn ->] | [Hn ->]]];
    [| rewrite (Hv0 (eq_sym Hn)) in * |]; repeat split; intros; lia.
Qed.

Lemma inject_Z_le (a b : Z) : inject_Z a <= inject_Z b <-> (a <= b)%Z.
Proof. unfold Qle. cbn [Qnum Qden inject_Z]. lia. Qed.

Lemma round_double_proper (q q' : Q) :
  q == q' -> round_double q = round_double q'.
Proof. intros H. unfold round_double. now rewrite (Qred_complete _ _ H). Qed.

(** Rounding keeps a value between two whole numbers of less than 53 bits
    that enclose it. *)
Lemma round_double_between_whole (q : Q) (a b : Z) :
  (- 2 ^ 53 < a)%Z -> (b < 2 ^ 53)%Z ->
  inject_Z a <= q -> q <= inject_Z b ->
  exists r, round_double q = FFinite r /\ inject_Z a <= r /\ r <= inject_Z b.
Proof.
  intros Ha Hb Hlo Hhi.
  assert (Hab : (a <= b)%Z) by (apply inject_Z_le; lra).
  destruct (Qlt_le_dec q 0) as [Hneg | Hpos].
  - assert (Ha0 : (a < 0)%Z).
    { apply Z.lt_nge. intros H0. apply inject_Z_le in H0.
      change (inject_Z 0) with 0 in H0. lra. }
    destruct (round_double_magnitude q (Z.max 0 (- b)) (- a) 0
                ltac:(lia) ltac:(lia) ltac:(lia)) as (r & Hr & H1 & H2 & _ & H4).
    + rewrite Z.pow_0_r, Z.mul_1_r, (Qabs_neg q) by lra.
      destruct (Z.max_spec 0 (- b)) as [[_ ->] | [_ ->]].
      * rewrite inject_Z_opp. lra.
      * change (inject_Z 0) with 0. lra.
    + rewrite Z.pow_0_r, Z.mul_1_r, (Qabs_neg q), inject_Z_opp by lra. lra.
    + exists r. split; [exact Hr |].
      specialize (H4 ltac:(lra)).
      rewrite Z.pow_0_r, Z.mul_1_r, (Qabs_neg r) in H1, H2 by exact H4.
      rewrite inject_Z_opp in H2.
      destruct (Z.max_spec 0 (- b)) as [[_ Hm] | [_ Hm]]; rewrite Hm in H1.
      * rewrite inject_Z_opp in H1. lra.
      * assert (inject_Z 0 <= inject_Z b) by (apply inject_Z_le; lia).
        change (inject_Z 0) with 0 in *. lra.
  - assert (Hb0 : (0 <= b)%Z).
    { apply inject_Z_le. change (inject_Z 0) with 0. lra. }
    destruct (round_double_magnitude q (Z.max 0 a) b 0
                ltac:(lia) ltac:(lia) ltac:(lia)) as (r & Hr & H1 & H2 & H3 & _).
    + rewrite Z.pow_0_r, Z.mul_1_r, (Qabs_pos q) by lra.
      destruct (Z.max_spec 0 a) as [[_ ->] | [_ ->]].
      * lra.
      * change (inject_Z 0) with 0. lra.
    + rewrite Z.pow_0_r, Z.mul_1_r, (Qabs_pos q) by lra. lra.
    + exists r. split; [exact Hr |].
      specialize (H3 Hpos).
      rewrite Z.pow_0_r, Z.mul_1_r, (Qabs_pos r) in H1, H2 by exact H3.
      destruct (Z.max_spec 0 a) as [[_ Hm] | [_ Hm]]; rewrite Hm in H1.
      * lra.
      * assert (inject_Z a <= inject_Z 0) by (apply inject_Z_le; lia).
        change (inject_Z 0) with 0 in *. lra.
Qed.

(** A whole number of less than 53 bits is a double. *)
Lemma round_double_whole (q : Q) (z : Z) :
  (- 2 ^ 53 < z < 2 ^ 53)%Z -> q == inject_Z z -> round_double q = whole z.
Proof.
  intros Hz Hq.
  destruct (round_double_between_whole q z z ltac:(lia) ltac:(lia))
    as (r & Hr & H1 & H2); [lra | lra |].
  rewrite Hr. unfold whole. f_equal.
  rewrite <- (round_double_canonical _ _ Hr).
  assert (Heq : r == z # 1) by (change (z # 1) with (inject_Z z); lra).
  rewrite (Qred_complete _ _ Heq).
  apply Qcanon.Qred_identity. apply Z.gcd_1_r.
Qed.

(** Below [2^1023] in magnitude there is no overflow. *)
Lemma round_double_finite (q : Q) :
  Qabs q <= inject_Z (2 ^ 1023) -> exists r, round_double q = FFinite r.
Proof.
  intros H.
  destruct (round_double_magnitude q 0 (2 ^ 52) 971
              ltac:(lia) ltac:(apply Z.pow_lt_mono_r; lia) ltac:(lia))
    as (r & Hr & _).
  - rewrite Z.mul_0_l. change (inject_Z 0) with 0. apply Qabs_nonneg.
  - rewrite <- Z.pow_add_r by lia. change (52 + 971)%Z with 1023%Z. exact H.
  - now exists r.
Qed.

(** A value of [-1] or less does not round to zero or above. *)
Lemma round_double_negative (q r : Q) :
  q <= - (1) -> round_double q = FFinite r -> r < 0.
Proof.
  intros Hq. rewrite <- (Qred_correct q) in Hq.
  unfold round_double. destruct (Qred q) as [n d]. cbn [Qnum Qden].
  unfold Qle in Hq. cbn [Qnum Qden Qopp] in Hq.
  assert (H2s : (0 < 2 ^ 1074)%Z) by (apply Z.pow_pos_nonneg; lia).
  pose proof (round_scaled_ge1 (Z.abs n) (Zpos d) ltac:(lia) ltac:(nia)) as Hv.
  destruct (_ <=? _)%Z; [discriminate |]. intros [= <-].
  rewrite Qred_correct. unfold Qlt. cbn [Qnum Qden].
  rewrite (Z.sgn_neg n) by lia. lia.
Qed.

Lemma round_double_samples :
  round_double (1 # 10) = FFinite (3602879701896397 # 36028797018963968)
  /\ round_double (301 # 3) = FFinite (7060330665825621 # 70368744177664)
  /\ round_double (400 # 2) = whole 200
  /\ round_double (1 # (2 ^ 1075)) = FFinite 0
  /\ round_double (inject_Z (2 ^ 1024 - 2 ^ 970 - 1))
     = whole (2 ^ 1024 - 2 ^ 971)
  /\ round_double (inject_Z (2 ^ 1024 - 2 ^ 970)) = FInf false.
Proof. vm_compute. repeat split. Qed.

(** *** The delay and the sleep *)

Lemma random_random_range (d : draw) :
  exists u, random_random d = FFinite u /\ 0 <= u /\ u < 1.
Proof.
  eexists. split; [reflexivity |].
  pose proof (Z.mod_pos_bound (random_bits d) (2 ^ 53) ltac:(reflexivity)) as H.
  rewrite Qred_correct. unfold Qle, Qlt. cbn [Qnum Qden]. split; lia.
Qed.

(** With whole bounds in order, the delay is a finite double between them. *)
Lemma random_uniform_whole (a b : Z) (d : draw) :
  (- 2 ^ 51 <= a)%Z -> (a <= b)%Z -> (b <= 2 ^ 51)%Z ->
  exists r,
    random_uniform (whole a) (whole b) d = FFinite r
    /\ inject_Z a <= r /\ r <= inject_Z b.
Proof.
  intros Ha Hab Hb.
  assert (H51 : (2 ^ 53 = 4 * 2 ^ 51)%Z) by reflexivity.
  assert (H51p : (0 < 2 ^ 51)%Z) by reflexivity.
  destruct (random_random_range d) as (u & Hu & Hu0 & Hu1).
  unfold random_uniform, fsub, fneg, whole. rewrite Hu. cbn [fadd].
  rewrite (round_double_whole _ (b - a)); [| lia |].
  2:{ rewrite Qred_correct. unfold Qeq. cbn [Qnum Qden Qplus Qopp inject_Z]. lia. }
  unfold whole. cbn [fmul].
  assert (Hc : 0 <= inject_Z (b - a)) by (apply (inject_Z_le 0); lia).
  change ((b - a) # 1) with (inject_Z (b - a)).
  destruct (round_double_between_whole (inject_Z (b - a) * u) 0 (b - a)
              ltac:(lia) ltac:(lia))
    as (m & Hm & Hm0 & Hm1);
    [change (inject_Z 0) with 0; nra | nra |].
  rewrite Hm. cbn [fadd].
  change (inject_Z 0) with 0 in Hm0.
  assert (Hsum : inject_Z b == inject_Z a + inject_Z (b - a)).
  { unfold Qeq. cbn [Qnum Qden Qplus inject_Z]. lia. }
  change (a # 1) with (inject_Z a).
  destruct (round_double_between_whole (inject_Z a + m) a b
              ltac:(lia) ltac:(lia))
    as (r & Hr & Hr0 & Hr1); [lra | lra |].
  exists r. split; [exact Hr | split; assumption].
Qed.

(** [time.sleep] accepts a delay of 0 to 9e9 seconds. *)
Lemma sleep_outcome_accepts (r : Q) :
  0 <= r -> r <= inject_Z 9000000000 -> sleep_outcome (FFinite r) = None.
Proof.
  intros H0 H1. unfold sleep_outcome, whole. cbn [fmul].
  destruct (round_double_magnitude (r * (1000000000 # 1)) 0 34332275390625 18
              ltac:(lia) ltac:(reflexivity) ltac:(lia))
    as (ns & Hns & _ & Hhi & Hpos & _).
  - rewrite Z.mul_0_l. change (inject_Z 0) with 0. apply Qabs_nonneg.
  - change (inject_Z (34332275390625 * 2 ^ 18))
      with (inject_Z 9000000000 * (1000000000 # 1)).
    rewrite Qabs_pos; nra.
  - rewrite Hns. specialize (Hpos ltac:(nra)).
    rewrite Qabs_pos in Hhi by exact Hpos.
    change (inject_Z (34332275390625 * 2 ^ 18))
      with (inject_Z 9000000000000000000) in Hhi.
    destruct ns as [n dn]. unfold Qle in Hpos, Hhi.
    cbn [Qnum Qden inject_Z] in Hpos, Hhi.
    unfold round_away. cbn [Qnum Qden].
    destruct (Z.leb_spec 0 n) as [_ | Hn]; [| lia].
    assert (Hq1 : (- 9000000000000000000 <= - n / Z.pos dn)%Z)
      by (apply Z.div_le_lower_bound; lia).
    assert (Hq2 : (- n / Z.pos dn <= 0)%Z)
      by (apply Z.div_le_upper_bound; lia).
    set (t := (- (- n / Z.pos dn))%Z) in *.
    assert (Ht : (0 <= t <= 9000000000000000000)%Z) by (unfold t; lia).
    clearbody t.
    assert (Hb : ((t <? - 2 ^ 63) || (2 ^ 63 <=? t))%bool = false).
    { apply orb_false_iff.
      split; [apply Z.ltb_ge | apply Z.leb_gt];
        change (2 ^ 63)%Z with 9223372036854775808%Z; lia. }
    rewrite Hb. assert (Hb0 : (t <? 0)%Z = false) by (apply Z.ltb_ge; lia).
    now rewrite Hb0.
Qed.

(** [time.sleep] rejects a delay of [-1] second or less. *)
Lemma sleep_outcome_rejects (r : Q) :
  r <= - (1) -> exists e, sleep_outcome (FFinite r) = Some e.
Proof.
  intros H1. unfold sleep_outcome, whole. cbn [fmul].
  destruct (round_double (r * (1000000000 # 1))) as [ns | neg |] eqn:Hns;
    [| eauto | eauto].
  assert (Hq : r * (1000000000 # 1) <= - (1)) by lra.
  pose proof (round_double_negative _ _ Hq Hns) as Hneg. clear Hq.
  destruct ns as [n dn]. unfold Qlt in Hneg. cbn [Qnum Qden] in Hneg.
  unfold round_away. cbn [Qnum Qden].
  destruct (Z.leb_spec 0 n) as [Hn | _]; [lia |].
  assert (Hq : (n / Z.pos dn < 0)%Z) by (apply Z.div_lt_upper_bound; lia).
  destruct (_ || _)%bool; [eauto |].
  destruct (Z.ltb_spec (n / Z.pos dn) 0); [eauto | lia].
Qed.

(** *** Accuracy *)

Local Open Scope Z_scope.

Lemma rne_error (p d : Z) : 0 < d -> 2 * Z.abs (rne p d * d - p) <= d.
Proof.
  intros Hd. unfold rne.
  pose proof (Z.div_mod p d ltac:(lia)) as Hp.
  pose proof (Z.mod_pos_bound p d Hd) as Hr.
  set (k := p / d) in *. set (r := p mod d) in *.
  destruct (Z.compare_spec (2 * r) d) as [He | Hl | Hg];
    [destruct (Z.even k) | |]; nia.
Qed.

(** The rounded value is within half a unit, or one part in [2^53], of the
    exact one. *)
Lemma round_scaled_error (n d : Z) :
  0 <= n -> 0 < d ->
  2 ^ 54 * Z.abs (round_scaled n d * d - n * 2 ^ 1074)
  <= 2 * (n * 2 ^ 1074) + 2 ^ 53 * d.
Proof.
  intros Hn Hd. unfold round_scaled.
  assert (H2s : 0 < 2 ^ 1074) by (apply Z.pow_pos_nonneg; lia).
  set (p := n * 2 ^ 1074) in *.
  assert (Hp0 : 0 <= p) by nia.
  change (2 ^ 54) with (2 * 2 ^ 53).
  assert (HA : 0 < 2 ^ 53) by reflexivity.
  set (A := 2 ^ 53) in *.
  destruct (Z.ltb_spec (p / d) A) as [Hsmall | Hbig].
  - pose proof (rne_error p d Hd). nia.
  - set (k := p / d) in *.
    assert (Hk0 : 0 < k) by lia.
    assert (Hlog : 53 <= Z.log2 k) by (apply Z.log2_le_pow2; [lia | exact Hbig]).
    set (sh := Z.log2 k - 52) in *.
    assert (He : 0 < 2 ^ sh) by (apply Z.pow_pos_nonneg; lia).
    assert (Hke : 2 ^ sh * 2 ^ 52 <= k).
    { rewrite <- Z.pow_add_r by lia.
      replace (sh + 52) with (Z.log2 k) by lia. apply Z.log2_spec; lia. }
    assert (HA2 : A = 2 * 2 ^ 52) by reflexivity.
    assert (H52 : 0 < 2 ^ 52) by reflexivity.
    set (B := 2 ^ 52) in *. set (e := 2 ^ sh) in *.
    pose proof (rne_error p (d * e) ltac:(nia)) as Hm.
    pose proof (Z.div_mod p d ltac:(lia)) as Hpk. fold k in Hpk.
    pose proof (Z.mod_pos_bound p d Hd) as Hr.
    assert (Hpde : d * e * B <= p) by nia.
    replace (rne p (d * e) * e * d - p) with (rne p (d * e) * (d * e) - p)
      by ring.
    nia.
Qed.

Local Open Scope Q_scope.

(** A finite result is within one part in [2^53] of the exact value, up to
    half the smallest positive double. *)
Lemma round_double_accuracy (q r : Q) :
  round_double q = FFinite r ->
  Qabs (r - q) <= Qabs q * (1 # 2 ^ 53) + (1 # 2 ^ 1075).
Proof.
  intros Hr. rewrite <- (Qred_correct q). unfold round_double in Hr.
  destruct (Qred q) as [n d]. cbn [Qnum Qden] in Hr.
  destruct (_ <=? _)%Z; [discriminate |]. injection Hr as <-.
  rewrite Qred_correct.
  pose proof (round_scaled_error (Z.abs n) (Zpos d) ltac:(lia) ltac:(lia))
    as Herr.
  set (v := round_scaled (Z.abs n) (Zpos d)) in *.
  unfold Qabs, Qminus, Qplus, Qmult, Qopp, Qle. cbn [Qnum Qden].
  rewrite !Pos2Z.inj_mul, pow_1074_pos.
  assert (H53 : Zpos (2 ^ 53) = (2 ^ 53)%Z) by now rewrite Pos2Z.inj_pow.
  assert (H1075 : Zpos (2 ^ 1075) = (2 * 2 ^ 1074)%Z).
  { rewrite Pos2Z.inj_pow. now change 1075%Z with (Z.succ 1074). }
  rewrite H53, H1075.
  change (2 ^ 54)%Z with (2 * 2 ^ 53)%Z in Herr.
  assert (HA : (0 < 2 ^ 53)%Z) by reflexivity.
  assert (HS : (0 < 2 ^ 1074)%Z) by (apply Z.pow_pos_nonneg; lia).
  set (A := (2 ^ 53)%Z) in *. set (S := (2 ^ 1074)%Z) in *.
  assert (Habs : Z.abs (Z.sgn n * v * Z.pos d + - n * S)
                 = Z.abs (v * Z.pos d - Z.abs n * S)).
  { destruct (Z.sgn_spec n) as [[Hn ->] | [[Hn ->] | [Hn ->]]].
    - rewrite (Z.abs_eq n) by lia. f_equal. ring.
    - assert (Hv : v = 0%Z).
      { unfold v. rewrite <- Hn. apply round_scaled_zero. lia. }
      rewrite Hv, <- Hn. reflexivity.
    - rewrite (Z.abs_neq n) by lia.
      match goal with |- Z.abs ?x = _ => rewrite <- (Z.abs_opp x) end.
      f_equal. ring. }
  rewrite Habs.
  set (E := Z.abs (v * Z.pos d - Z.abs n * S)) in *.
  set (D := Z.pos d) in *. assert (HD : (0 < D)%Z) by (unfold D; lia).
  set (N := Z.abs n) in *. assert (HN : (0 <= N)%Z) by (unfold N; lia).
  clearbody E D N A S v.
  replace (E * (D * A * (2 * S)))%Z with ((S * D) * (2 * A * E))%Z by ring.
  replace ((N * 1 * (2 * S) + 1 * (D * A)) * (S * D))%Z
    with ((S * D) * (2 * (N * S) + A * D))%Z by ring.
  apply Z.mul_le_mono_nonneg_l; [nia | exact Herr].
Qed.

End FloatFacts.

(** ** Facts about the string operations *)

Module PyStrFacts.
Import PyStr.

Lemma append_nil (t : string) : EmptyString +:+ t = t.
Proof. reflexivity. Qed.

Lemma append_cons (c : ascii) (s t : string) :
  String c s +:+ t = String c (s +:+ t).
Proof. reflexivity. Qed.

Ltac push_append := rewrite ?append_cons, ?append_nil in *.

Lemma append_assoc (s1 s2 s3 : string) :
  (s1 +:+ s2) +:+ s3 = s1 +:+ s2 +:+ s3.
Proof.
  induction s1 as [|c s1 IH]; push_append; [reflexivity | now rewrite IH].
Qed.

Lemma append_empty_r (s : string) : s +:+ EmptyString = s.
Proof.
  induction s as [|c s IH]; push_append; [reflexivity | now rewrite IH].
Qed.

Lemma length_append (s1 s2 : string) :
  String.length (s1 +:+ s2) = String.length s1 + String.length s2.
Proof.
  induction s1 as [|c s1 IH]; push_append; simpl; [reflexivity | now rewrite IH].
Qed.

(** Two ways of cutting the same text: the longer head extends the
    shorter one. *)
Lemma append_split (b p x y : string) :
  b +:+ x = p +:+ y ->
  String.length b <= String.length p ->
  exists d, p = b +:+ d /\ x = d +:+ y.
Proof.
  revert p. induction b as [|c b IH]; intros p Heq Hlen.
  - exists p. split; [reflexivity | exact Heq].
  - destruct p as [|c' p]; simpl in Hlen; [lia |].
    push_append. injection Heq as -> Heq.
    destruct (IH p Heq ltac:(lia)) as (d & -> & ->).
    exists d. split; reflexivity.
Qed.

Lemma append_same_length (b p x y : string) :
  b +:+ x = p +:+ y ->
  String.length b = String.length p ->
  b = p /\ x = y.
Proof.
  intros Heq Hlen.
  destruct (append_split b p x y Heq ltac:(lia)) as (d & -> & ->).
  rewrite length_append in Hlen.
  destruct d; simpl in Hlen; [| lia].
  now rewrite append_empty_r.
Qed.

Lemma startswith_append (p s : string) : startswith (p +:+ s) p = true.
Proof.
  induction p as [|c p IH]; push_append; simpl; [reflexivity |].
  now rewrite Ascii.eqb_refl.
Qed.

Lemma startswith_drop (s p : string) :
  startswith s p = true -> s = p +:+ drop (String.length p) s.
Proof.
  revert s. induction p as [|c p IH]; intros s H; simpl in *; [reflexivity |].
  destruct s as [|c' s]; [discriminate |].
  destruct (Ascii.eqb_spec c c') as [-> | _]; [| discriminate].
  push_append. f_equal. now apply IH.
Qed.

Lemma partition_unfold (s sep : string) :
  partition s sep =
    if startswith s sep then Some (EmptyString, drop (String.length sep) s)
    else match s with
         | EmptyString => None
         | String c s' =>
             match partition s' sep with
             | Some (b, a) => Some (String c b, a)
             | None => None
             end
         end.
Proof. destruct s; reflexivity. Qed.

(** What [partition] returns surrounds an occurrence of the separator. *)
Lemma partition_Some (s sep b a : string) :
  partition s sep = Some (b, a) -> s = b +:+ sep +:+ a.
Proof.
  revert b a. induction s as [|c s IH]; intros b a H;
    rewrite partition_unfold in H.
  - destruct (startswith EmptyString sep) eqn:Hp; [| discriminate].
    injection H as <- <-. now apply startswith_drop.
  - destruct (startswith (String c s) sep) eqn:Hp.
    + injection H as <- <-. now apply startswith_drop.
    + destruct (partition s sep) as [[b' a'] |] eqn:Hs; [| discriminate].
      injection H as <- <-. push_append. f_equal. now apply IH.
Qed.

(** ... and that occurrence is the first one. *)
Lemma partition_first (p sep t : string) :
  exists b a, partition (p +:+ sep +:+ t) sep = Some (b, a)
              /\ String.length b <= String.length p.
Proof.
  induction p as [|c p IH]; push_append.
  - rewrite partition_unfold, startswith_append.
    eexists _, _. split; [reflexivity | simpl; lia].
  - destruct IH as (b & a & Hba & Hlen).
    rewrite partition_unfold.
    destruct (startswith _ sep).
    + eexists _, _. split; [reflexivity | simpl; lia].
    + rewrite Hba.
      eexists _, _. split; [reflexivity | simpl; lia].
Qed.

Lemma partition_None (s sep : string) :
  partition s sep = None -> forall p t, s <> p +:+ sep +:+ t.
Proof.
  intros Hnone p t ->.
  destruct (partition_first p sep t) as (b & a & Hba & _). congruence.
Qed.

Lemma partition_shorter (s sep b a : string) :
  sep <> EmptyString ->
  partition s sep = Some (b, a) ->
  String.length a < String.length s.
Proof.
  intros Hsep H. apply partition_Some in H. subst s.
  rewrite !length_append. destruct sep; [congruence | simpl; lia].
Qed.

Lemma partition_empty (sep : string) :
  sep <> EmptyString -> partition EmptyString sep = None.
Proof. destruct sep; [congruence | reflexivity]. Qed.

(** Fuel beyond the length of the text changes nothing. *)
Lemma split_fuel_stable (sep : string) :
  sep <> EmptyString ->
  forall f1 f2 s, String.length s <= f1 -> String.length s <= f2 ->
    split_fuel f1 s sep = split_fuel f2 s sep.
Proof.
  intros Hsep. induction f1 as [|f1 IH]; intros f2 s H1 H2.
  - destruct s; simpl in H1; [| lia].
    destruct f2; cbn [split_fuel]; [reflexivity |].
    now rewrite (partition_empty sep Hsep).
  - destruct f2 as [|f2].
    + destruct s; simpl in H2; [| lia]. cbn [split_fuel].
      now rewrite (partition_empty sep Hsep).
    + cbn [split_fuel]. destruct (partition s sep) as [[b a] |] eqn:Hp; [| reflexivity].
      pose proof (partition_shorter _ _ _ _ Hsep Hp).
      f_equal. apply IH; lia.
Qed.

(** The recursive equation of [split]. *)
Lemma split_unfold (s sep : string) :
  sep <> EmptyString ->
  split s sep =
    match partition s sep with
    | None => [s]
    | Some (b, a) => b :: split a sep
    end.
Proof.
  intros Hsep. unfold split.
  destruct (String.length s) as [|n] eqn:Hn.
  - destruct s; [| discriminate].
    now rewrite (partition_empty sep Hsep).
  - cbn [split_fuel]. destruct (partition s sep) as [[b a] |] eqn:Hp; [| reflexivity].
    pose proof (partition_shorter _ _ _ _ Hsep Hp).
    f_equal. apply split_fuel_stable; [exact Hsep | lia | lia].
Qed.

Lemma split_absent (s sep : string) :
  partition s sep = None -> split s sep = [s].
Proof.
  intros H. unfold split.
  destruct (String.length s); cbn [split_fuel]; [reflexivity |].
  now rewrite H.
Qed.

Lemma split_nonempty (s sep : string) : split s sep <> [].
Proof.
  unfold split. destruct (String.length s); cbn [split_fuel]; [discriminate |].
  destruct (partition s sep) as [[b a] |]; discriminate.
Qed.

Lemma last_piece_cons (b : string) (l : list string) :
  l <> [] -> last_piece (b :: l) = last_piece l.
Proof. destruct l; [congruence | reflexivity]. Qed.

Lemma drop_append (p s : string) : drop (String.length p) (p +:+ s) = s.
Proof. induction p as [|c p IH]; push_append; simpl; [reflexivity | exact IH]. Qed.

Lemma drop_suffix (n : nat) (s : string) : exists q, s = q +:+ drop n s.
Proof.
  revert s. induction n as [|n IH]; intros s; simpl.
  - exists EmptyString. reflexivity.
  - destruct s as [|c s]; [exists EmptyString; reflexivity |].
    destruct (IH s) as [q Hq]. exists (String c q).
    push_append. now f_equal.
Qed.

Lemma endswith_append (q p : string) : endswith (q +:+ p) p = true.
Proof.
  unfold endswith. rewrite length_append.
  replace (String.length q + String.length p - String.length p)
    with (String.length q) by lia.
  rewrite drop_append, String.eqb_refl. simpl.
  apply Nat.leb_le. lia.
Qed.

Lemma endswith_inv (s p : string) :
  endswith s p = true -> exists q, s = q +:+ p.
Proof.
  unfold endswith. intros H. apply andb_prop in H as [H _].
  apply String.eqb_eq in H.
  destruct (drop_suffix (String.length s - String.length p) s) as [q Hq].
  exists q. now rewrite H in Hq.
Qed.

Lemma endswith_false (s p : string) :
  endswith s p = false -> forall q, s <> q +:+ p.
Proof. intros H q ->. rewrite endswith_append in H. discriminate. Qed.

(** [rpartition] cuts around an occurrence of the separator ... *)
Lemma rpartition_None (s sep : string) :
  rpartition s sep = None -> forall p t, s <> p +:+ sep +:+ t.
Proof.
  induction s as [|c s IH]; intros H p t Heq.
  - destruct p; [| discriminate]. destruct sep; discriminate.
  - cbn [rpartition] in H.
    destruct (rpartition s sep) as [[b a] |] eqn:Hs; [discriminate |].
    destruct (startswith (String c s) sep) eqn:Hp; [discriminate |].
    destruct p as [|c' p]; push_append.
    + rewrite Heq, startswith_append in Hp. discriminate.
    + injection Heq as -> Heq. now apply (IH eq_refl p t).
Qed.

Lemma rpartition_Some (s sep p t : string) :
  sep <> EmptyString ->
  rpartition s sep = Some (p, t) -> s = p +:+ sep +:+ t.
Proof.
  intros Hsep. revert p. induction s as [|c s IH]; intros p H.
  - destruct sep; [congruence | discriminate].
  - cbn [rpartition] in H.
    destruct (rpartition s sep) as [[b a] |] eqn:Hs.
    + injection H as <- <-. push_append. f_equal. now apply IH.
    + destruct (startswith (String c s) sep) eqn:Hp; [| discriminate].
      injection H as <- <-. now apply startswith_drop.
Qed.

(** ... and no occurrence starts further to the right. *)
Lemma rpartition_last (s sep p t : string) :
  rpartition s sep = Some (p, t) ->
  forall p' t', s = p' +:+ sep +:+ t' -> String.length p' <= String.length p.
Proof.
  revert p. induction s as [|c s IH]; intros p H p' t' Heq.
  - destruct p'; [simpl; lia | discriminate].
  - cbn [rpartition] in H.
    destruct p' as [|c' p']; [simpl; lia |].
    push_append. injection Heq as -> Heq.
    destruct (rpartition s sep) as [[b a] |] eqn:Hs.
    + injection H as <- <-. simpl.
      specialize (IH b eq_refl p' t' Heq). lia.
    + exfalso. now apply (rpartition_None s sep Hs p' t').
Qed.

(** [rstrip] keeps a text that does not end with the character. *)
Lemma rstrip_keep (s : string) (c : ascii) :
  endswith s (String c EmptyString) = false -> rstrip s c = s.
Proof.
  intros H. pose proof (endswith_false _ _ H) as Hno. clear H.
  induction s as [|a s IH]; [reflexivity |].
  cbn [rstrip]. destruct s as [|a' s'].
  - simpl. destruct (Ascii.eqb_spec a c) as [-> | _]; [| reflexivity].
    exfalso. now apply (Hno EmptyString).
  - rewrite IH; [reflexivity |].
    intros q Hq. apply (Hno (String a q)). push_append. now f_equal.
Qed.

(** What [rstrip] returns does not end with the character, and the text
    is that result followed by copies of the character only. *)
Lemma rstrip_spec (s : string) (c : ascii) :
  endswith (rstrip s c) (String c EmptyString) = false
  /\ exists n, s = rstrip s c +:+ repeat_char c n.
Proof.
  induction s as [|a s [IH1 [n IH2]]].
  - split; [reflexivity | exists 0; reflexivity].
  - cbn [rstrip]. destruct (rstrip s c) as [|r0 r] eqn:Hr.
    + destruct (Ascii.eqb_spec a c) as [-> | Hne].
      * split; [reflexivity |]. exists (S n).
        push_append. simpl. now f_equal.
      * split.
        -- unfold endswith. simpl.
           destruct (Ascii.eqb_spec a c); [congruence | reflexivity].
        -- exists n. push_append. now f_equal.
    + split.
      * destruct (endswith (String a (String r0 r)) (String c EmptyString))
          eqn:He; [| reflexivity].
        apply endswith_inv in He as [q Hq].
        destruct q as [|q0 q]; push_append; [discriminate |].
        injection Hq as _ Hq.
        rewrite Hq, endswith_append in IH1. discriminate.
      * exists n. push_append. now f_equal.
Qed.

End PyStrFacts.

(** ** The derived key *)

Section DerivedKey.
Import PyStr PyStrFacts.

Lemma marker_nonempty : marker <> EmptyString.
Proof. discriminate. Qed.

(** Two occurrences of ['/in/'] either share their boundary ['/'] or do not
    touch. *)
Lemma marker_overlap (a t d : string) :
  d <> EmptyString ->
  marker +:+ a = d +:+ marker +:+ t ->
  d = "/in" \/ exists d', d = marker +:+ d' /\ a = d' +:+ marker +:+ t.
Proof.
  unfold marker. intros Hd Heq.
  destruct d as [|c1 d]; [congruence |].
  push_append. injection Heq as <- Heq.
  destruct d as [|c2 d]; push_append; [discriminate |].
  injection Heq as <- Heq.
  destruct d as [|c3 d]; push_append; [discriminate |].
  injection Heq as <- Heq.
  destruct d as [|c4 d]; push_append; [now left |].
  injection Heq as <- Heq.
  right. exists d. split; [reflexivity | exact Heq].
Qed.

(** The last piece of the split is the text after the rightmost marker when
    no earlier marker overlaps it. *)
Lemma last_piece_rightmost (n : nat) :
  forall s p t,
    String.length s <= n ->
    s = p +:+ marker +:+ t ->
    (forall p' t', s = p' +:+ marker +:+ t' ->
                   String.length p' <= String.length p) ->
    endswith p "/in" = false ->
    last_piece (split s marker) = t.
Proof.
  induction n as [|n IH]; intros s p t Hn Hs Hlast Hend.
  - subst s. rewrite !length_append in Hn. simpl in Hn. lia.
  - destruct (partition_first p marker t) as (b & a & Hba & Hlen).
    rewrite <- Hs in Hba.
    rewrite (split_unfold _ _ marker_nonempty), Hba.
    rewrite last_piece_cons by apply split_nonempty.
    pose proof (partition_Some _ _ _ _ Hba) as Hs'.
    pose proof (partition_shorter _ _ _ _ marker_nonempty Hba) as Hshort.
    assert (Hcut : b +:+ marker +:+ a = p +:+ marker +:+ t) by congruence.
    destruct (append_split _ _ _ _ Hcut Hlen) as (d & Hp & Hd).
    destruct d as [|c d].
    + (* the first marker is the rightmost one *)
      unfold marker in Hd. push_append. injection Hd as ->.
      destruct (partition t marker) as [[b' a'] |] eqn:Ht.
      * exfalso. apply partition_Some in Ht.
        specialize (Hlast (p +:+ marker +:+ b') a').
        rewrite !length_append in Hlast.
        assert (0 < String.length marker) by (simpl; lia).
        enough (String.length p + (String.length marker + String.length b')
                <= String.length p) by lia.
        apply Hlast. rewrite Hs, Ht, !append_assoc. reflexivity.
      * now rewrite (split_absent _ _ Ht).
    + destruct (marker_overlap a t (String c d) ltac:(discriminate) Hd)
        as [Hov | (d' & Hd' & Ha)].
      * exfalso. rewrite Hp, Hov, endswith_append in Hend. discriminate.
      * apply (IH a d' t); [lia | exact Ha | |].
        -- intros p' t' Ha'.
           specialize (Hlast (b +:+ marker +:+ p') t').
           rewrite Hp, Hd', !length_append in Hlast.
           enough (String.length b + (String.length marker + String.length p')
                   <= String.length b + (String.length marker + String.length d'))
             by lia.
           apply Hlast. rewrite Hs', Ha', !append_assoc. reflexivity.
        -- destruct (endswith d' "/in") eqn:He; [| reflexivity].
           apply endswith_inv in He as [q Hq].
           rewrite Hp, Hd', Hq, <- !append_assoc, endswith_append in Hend.
           discriminate.
Qed.

(** With a marker present, the last piece follows a marker and holds none. *)
Lemma last_piece_after_marker (n : nat) :
  forall s,
    String.length s <= n ->
    contains s marker = true ->
    exists p t, s = p +:+ marker +:+ t
                /\ contains t marker = false
                /\ last_piece (split s marker) = t.
Proof.
  unfold contains.
  induction n as [|n IH]; intros s Hn Hc;
    destruct (partition s marker) as [[b a] |] eqn:Hba; try discriminate.
  - apply (partition_shorter _ _ _ _ marker_nonempty) in Hba. lia.
  - rewrite (split_unfold _ _ marker_nonempty), Hba.
    rewrite last_piece_cons by apply split_nonempty.
    pose proof (partition_shorter _ _ _ _ marker_nonempty Hba) as Hshort.
    apply partition_Some in Hba.
    destruct (partition a marker) as [[b' a'] |] eqn:Ha.
    + destruct (IH a ltac:(lia)) as (p & t & Hpt & Ht & Hl);
        [now rewrite Ha |].
      exists (b +:+ marker +:+ p), t. split; [| split; assumption].
      rewrite Hba, Hpt, !append_assoc. reflexivity.
    + exists b, a. split; [exact Hba |]. split; [now rewrite Ha |].
      now rewrite (split_absent _ _ Ha).
Qed.

End DerivedKey.

(** C2, as the specification states it, fails on the code.  With two
    markers that share a ['/'] the split cuts at the first one, so the key is
    not the text after the last occurrence; and an identifier without marker
    that ends in ['/'] loses that ['/'], so the key is not the whole
    identifier. *)
Lemma derived_key_claim_fails :
  extract_username "a/in/in/b" <> spec_derived_key "a/in/in/b"
  /\ PyStr.contains "plain-id/" marker = false
  /\ extract_username "plain-id/" <> "plain-id/".
Proof. repeat split; try reflexivity; discriminate. Qed.

(** C2 (amended): the derived key is the last piece of Python's
    left-to-right split of the identifier on ['/in/'] with the trailing ['/']
    characters trimmed.  ['linkedin.com/in/sample-profile-1'] yields
    ['sample-profile-1'].  When the marker occurs, the key is the trimmed
    text after a marker, and that text holds no marker; it is the text after
    the last occurrence whenever the text before that occurrence does not end
    in ['/in'].  When the marker does not occur, the key is the identifier
    with its trailing ['/'] trimmed, hence the whole identifier when it does
    not end in ['/'].  The key never ends in ['/']. *)
Theorem derived_key_extraction (identifier : string) :
  extract_username "linkedin.com/in/sample-profile-1" = "sample-profile-1"
  /\ (PyStr.contains identifier marker = true ->
      exists before after,
        identifier = before +:+ marker +:+ after
        /\ PyStr.contains after marker = false
        /\ extract_username identifier = PyStr.rstrip after "/"%char)
  /\ (forall before after,
        PyStr.rpartition identifier marker = Some (before, after) ->
        PyStr.endswith before "/in" = false ->
        extract_username identifier = PyStr.rstrip after "/"%char)
  /\ (PyStr.contains identifier marker = false ->
      extract_username identifier = PyStr.rstrip identifier "/"%char)
  /\ (PyStr.contains identifier marker = false ->
      PyStr.endswith identifier "/" = false ->
      extract_username identifier = identifier)
  /\ PyStr.endswith (extract_username identifier) "/" = false.
Proof.
  assert (Habsent : PyStr.contains identifier marker = false ->
                    extract_username identifier = PyStr.rstrip identifier "/"%char).
  { unfold PyStr.contains, extract_username. intros H.
    destruct (PyStr.partition identifier marker) eqn:Hp; [discriminate |].
    now rewrite (PyStrFacts.split_absent _ _ Hp). }
  split; [reflexivity |]. split; [| split; [| split; [| split]]].
  - intros Hc.
    destruct (last_piece_after_marker _ identifier (Nat.le_refl _) Hc)
      as (p & t & Hs & Ht & Hl).
    exists p, t. unfold extract_username. now rewrite Hl.
  - intros p t Hr Hend. unfold extract_username.
    rewrite (last_piece_rightmost _ identifier p t (Nat.le_refl _)); auto.
    + now apply PyStrFacts.rpartition_Some.
    + now apply PyStrFacts.rpartition_last with (t := t).
  - exact Habsent.
  - intros Hc Hend. rewrite (Habsent Hc).
    now apply PyStrFacts.rstrip_keep.
  - unfold extract_username. apply PyStrFacts.rstrip_spec.
Qed.

Lemma derived_key_extraction_witness :
  extract_username "x/in/in/y/in/sam//" = "sam"
  /\ extract_username "plain-id//" = "plain-id"
  /\ extract_username "plain-id" = "plain-id".
Proof.
  split; [| split].
  - destruct (derived_key_extraction "x/in/in/y/in/sam//")
      as (_ & _ & H & _).
    apply (H "x/in/in/y" "sam//"); reflexivity.
  - destruct (derived_key_extraction "plain-id//") as (_ & _ & _ & H & _).
    apply H. reflexivity.
  - destruct (derived_key_extraction "plain-id") as (_ & _ & _ & _ & H & _).
    apply H; reflexivity.
Defined.

(** ** Running the methods *)

Ltac run_monad :=
  cbv [simulate_profile_data scrape_profiles save_to_csv save_to_json
       get_stats try_except bind ret raise gets modify lift logger print
       next_draw time_sleep write_file init open_log_file dict_getitem
       format_2f].


Lemma bind_ok {A B} (m : M A) (k : A -> M B) (w : env) (s : state)
    (a : A) (s' : state) :
  m w s = (Ok a, s') -> bind m k w s = k a w s'.
Proof. intros H. unfold bind. now rewrite H. Qed.

(** The two ways a call of [simulate_profile_data] ends: [time.sleep]
    returns and a record is built and appended, or it raises and the handler
    logs the error. *)
Lemma simulate_profile_data_run (url : string) (w : env) (s : state) :
  simulate_profile_data url w s =
    let d := draws w (calls s) in
    match sleep_outcome (next_delay w s) with
    | None =>
        (Ok (Some (profile_record url d)),
         mkState (output_csv s) (min_delay s) (max_delay s)
                 (profiles s ++ [profile_record url d]) (S (calls s))
                 (((log s ++ [(INFO, MsgRateLimiting (next_delay w s))])
                     ++ [(INFO, MsgProcessing url)])
                    ++ [(INFO, MsgProcessed (extract_username url))])
                 (files s) (stdout s))
    | Some e =>
        (Ok None,
         mkState (output_csv s) (min_delay s) (max_delay s)
                 (profiles s) (S (calls s))
                 ((log s ++ [(INFO, MsgRateLimiting (next_delay w s))])
                    ++ [(ERROR, MsgErrorProcessing url e)])
                 (files s) (stdout s))
    end.
Proof.
  run_monad. unfold set_calls, set_log, set_profiles, next_delay.
  cbn [output_csv min_delay max_delay profiles calls log files stdout].
  destruct (sleep_outcome _); reflexivity.
Qed.

Lemma simulate_profile_data_profiles (url : string) (w : env) (s : state) :
  exists r s',
    simulate_profile_data url w s = (Ok r, s')
    /\ profiles s' = profiles s ++ successes [r]
    /\ (forall record, r = Some record ->
          dict_get record "profile_url" = Some (VStr url))
    /\ calls s' = S (calls s)
    /\ min_delay s' = min_delay s /\ max_delay s' = max_delay s
    /\ output_csv s' = output_csv s
    /\ files s' = files s /\ stdout s' = stdout s.
Proof.
  rewrite simulate_profile_data_run. cbv zeta.
  destruct (sleep_outcome _); eexists _, _; (split; [reflexivity |]);
    cbn [profiles calls min_delay max_delay output_csv files stdout].
  - rewrite app_nil_r. repeat split; try reflexivity. discriminate.
  - repeat split; try reflexivity.
    intros record [= <-]. reflexivity.
Qed.

(** The outcomes of a run depend on the state through the delay bounds and
    the position in the stream of draws only. *)
Lemma outcomes_ext (urls : list string) (w : env) :
  forall s1 s2,
    min_delay s1 = min_delay s2 -> max_delay s1 = max_delay s2 ->
    calls s1 = calls s2 ->
    outcomes urls w s1 = outcomes urls w s2.
Proof.
  induction urls as [|url urls IH]; intros s1 s2 Hmin Hmax Hcalls;
    [reflexivity |].
  cbn [outcomes]. rewrite !simulate_profile_data_run. cbv zeta.
  unfold next_delay. rewrite Hmin, Hmax, Hcalls.
  destruct (sleep_outcome _); f_equal; apply IH; reflexivity.
Qed.

(** The loop never raises, appends the successes in call order and makes one
    call per identifier. *)
Lemma for_each_url_run (urls : list string) (w : env) :
  forall s, exists s',
    for_each_url urls w s = (Ok tt, s')
    /\ profiles s' = profiles s ++ successes (outcomes urls w s)
    /\ length (outcomes urls w s) = length urls
    /\ Forall2 (fun url o => forall record, o = Some record ->
                  dict_get record "profile_url" = Some (VStr url))
               urls (outcomes urls w s)
    /\ calls s' = (calls s + length urls)%nat
    /\ min_delay s' = min_delay s /\ max_delay s' = max_delay s
    /\ output_csv s' = output_csv s
    /\ files s' = files s /\ stdout s' = stdout s.
Proof.
  induction urls as [|url urls IH]; intros s.
  - exists s. cbn. rewrite app_nil_r, Nat.add_0_r.
    repeat split; try reflexivity. constructor.
  - destruct (simulate_profile_data_profiles url w s)
      as (r & s1 & Hrun & Hps & Hurl & Hc & Hmin & Hmax & Hout & Hf & Hstd).
    destruct (IH s1)
      as (s2 & Hrun2 & Hps2 & Hlen & Hall & Hc2 & Hmin2 & Hmax2 & Hout2 & Hf2 & Hstd2).
    exists s2. cbn [for_each_url outcomes]. unfold bind at 1.
    rewrite Hrun, Hrun2, Hps2, Hps.
    repeat split; try congruence.
    + rewrite <- app_assoc. f_equal. unfold successes. now destruct r.
    + cbn. now rewrite Hlen.
    + constructor; assumption.
    + rewrite Hc2, Hc. cbn. lia.
Qed.

Lemma scrape_profiles_run (urls : list string) (w : env) (s : state) :
  exists s',
    scrape_profiles urls w s
      = (Ok (profiles s ++ successes (outcomes urls w s)), s')
    /\ profiles s' = profiles s ++ successes (outcomes urls w s)
    /\ calls s' = (calls s + length urls)%nat
    /\ min_delay s' = min_delay s /\ max_delay s' = max_delay s
    /\ output_csv s' = output_csv s
    /\ files s' = files s /\ stdout s' = stdout s.
Proof.
  pose (s0 := set_log (log s ++ [(INFO, MsgStarting (length urls))]) s).
  destruct (for_each_url_run urls w s0)
    as (s1 & Hrun & Hps & _ & _ & Hc & Hmin & Hmax & Hout & Hf & Hstd).
  rewrite (outcomes_ext urls w s0 s) in Hps by reflexivity.
  eexists. unfold scrape_profiles.
  unfold bind at 1. unfold logger at 1, modify at 1. fold s0.
  unfold bind at 1. rewrite Hrun.
  run_monad. cbn [profiles set_log calls min_delay max_delay output_csv files stdout].
  rewrite Hps. repeat split; assumption.
Qed.

(** ** The batch runner *)

(** C10: a call of [simulate_profile_data] never raises and ends in one of
    two ways: it returns a record and that record is the one element added
    at the end of the collection, or it returns [None] and the collection is
    as it was.  Whatever makes it fail does so before the record is
    appended. *)
Theorem simulate_profile_data_atomic (url : string) (w : env) (s : state) :
  exists r s',
    simulate_profile_data url w s = (Ok r, s')
    /\ match r with
       | Some record => profiles s' = profiles s ++ [record]
       | None => profiles s' = profiles s
       end.
Proof.
  rewrite simulate_profile_data_run. cbv zeta.
  destruct (sleep_outcome _); eexists _, _; (split; [reflexivity |]);
    reflexivity.
Qed.

Lemma all_records (urls : list string) (os : list (option dict)) :
  Forall2 (fun url o => forall record, o = Some record ->
             dict_get record "profile_url" = Some (VStr url)) urls os ->
  forallb is_some os = true ->
  length (successes os) = length urls
  /\ map (fun record => dict_get record "profile_url") (successes os)
     = map (fun url => Some (VStr url)) urls.
Proof.
  induction 1 as [|url o urls os Hurl _ IH]; intros Hall;
    [split; reflexivity |].
  cbn [forallb] in Hall. apply andb_prop in Hall as [Ho Hos].
  destruct o as [record |]; [| discriminate].
  destruct (IH Hos) as [Hlen Hmap].
  unfold successes in *. cbn. rewrite Hlen, Hmap, (Hurl record eq_refl).
  split; reflexivity.
Qed.

(** C1: started on an empty collection, a run of [scrape_profiles] in which
    no call of [simulate_profile_data] fails returns one record per
    identifier, in input order, the i-th record carrying the i-th identifier
    as its [profile_url]; the list returned is the collection itself.  This
    holds for every input sequence, the non-empty ones included. *)
Theorem scrape_profiles_one_record_per_identifier
    (urls : list string) (w : env) (s : state) :
  profiles s = [] ->
  no_failure urls w s = true ->
  exists records s',
    scrape_profiles urls w s = (Ok records, s')
    /\ profiles s' = records
    /\ length records = length urls
    /\ map (fun record => dict_get record "profile_url") records
       = map (fun url => Some (VStr url)) urls.
Proof.
  intros Hempty Hok.
  destruct (scrape_profiles_run urls w s) as (s' & Hrun & Hps & _).
  destruct (for_each_url_run urls w s) as (_ & _ & _ & _ & Hall & _).
  destruct (all_records _ _ Hall Hok) as [Hlen Hmap].
  rewrite Hempty in Hrun, Hps. cbn [app] in Hrun, Hps.
  exists (successes (outcomes urls w s)), s'.
  split; [exact Hrun | split; [exact Hps | split; assumption]].
Qed.

Lemma scrape_profiles_one_record_per_identifier_witness :
  exists records s',
    scrape_profiles ["linkedin.com/in/sample-profile-1"; "plain-id"; "x/in/y/"]
                    demo_env demo_state = (Ok records, s')
    /\ profiles s' = records
    /\ length records = 3
    /\ map (fun record => dict_get record "profile_url") records
       = [Some (VStr "linkedin.com/in/sample-profile-1");
          Some (VStr "plain-id"); Some (VStr "x/in/y/")].
Proof.
  apply (scrape_profiles_one_record_per_identifier
           ["linkedin.com/in/sample-profile-1"; "plain-id"; "x/in/y/"]
           demo_env demo_state); vm_compute; reflexivity.
Defined.

(** ** The statistics *)

Lemma py_sum_records (ps : list dict) :
  forallb record_shaped ps = true ->
  forall acc,
    py_sum_from (VInt acc) (map get_connections ps)
    = Ok (VInt (acc + total_primary_metric ps)).
Proof.
  unfold total_primary_metric.
  induction ps as [|p ps IH]; intros Hall acc; cbn.
  - now rewrite Z.add_0_r.
  - cbn in Hall. apply andb_prop in Hall as [Hp Hps].
    unfold get_connections, primary_metric, record_shaped in *.
    destruct (dict_get p "connections") as [[| n |] |]; try discriminate.
    cbn. rewrite (IH Hps). now rewrite Z.add_assoc.
Qed.

Lemma count_skills_records (ps : list dict) :
  forallb record_shaped ps = true ->
  count_skills ps = length (List.filter tags_nonempty ps).
Proof.
  unfold count_skills.
  induction ps as [|p ps IH]; intros Hall; [reflexivity |].
  cbn in Hall. apply andb_prop in Hall as [Hp Hps].
  rewrite filter_cons. cbn [List.filter].
  assert (Heq : truthy (dict_get p "skills") = tags_nonempty p).
  { unfold record_shaped, tags_nonempty in *.
    destruct (dict_get p "connections") as [[| n |] |]; try discriminate.
    destruct (dict_get p "skills") as [[t | |] |]; try discriminate.
    reflexivity. }
  rewrite <- Heq.
  destruct (decide (truthy (dict_get p "skills") = true)) as [Ht | Hf].
  - rewrite Ht. cbn. now rewrite (IH Hps).
  - destruct (truthy (dict_get p "skills")); [congruence |]. now apply IH.
Qed.

Lemma quotient_is_mean (ps : list dict) :
  ps <> [] ->
  (total_primary_metric ps # Pos.of_nat (length ps)
   == mean_primary_metric ps)%Q.
Proof.
  intros Hne. destruct ps as [|p ps]; [congruence |].
  unfold mean_primary_metric. rewrite Qmake_Qdiv. cbn [length].
  now rewrite <- Pos.of_nat_succ, Zpos_P_of_succ_nat, <- Nat2Z.inj_succ.
Qed.

(** [get_stats] reads the collection and nothing else, and writes nothing. *)
Lemma get_stats_reads_only (w : env) (s : state) :
  exists r, forall w' s',
    profiles s' = profiles s -> get_stats w' s' = (r, s').
Proof.
  run_monad.
  destruct (profiles s) as [|p ps] eqn:Hps.
  - eexists. intros w' s' ->. reflexivity.
  - destruct (py_sum (map get_connections (p :: ps))) as [total | e] eqn:Hsum.
    + destruct (py_truediv total (length (p :: ps))) as [avg | e] eqn:Hdiv;
        eexists; intros w' s' ->; rewrite Hsum, Hdiv; reflexivity.
    + eexists. intros w' s' ->. rewrite Hsum. reflexivity.
Qed.

(** On a non-empty collection of records the three entries are computed
    without an exception when the quotient is within the range of a float. *)
Lemma get_stats_records (w : env) (s : state) (average : Q) :
  profiles s <> [] ->
  forallb record_shaped (profiles s) = true ->
  round_double (total_primary_metric (profiles s)
                # Pos.of_nat (length (profiles s))) = FFinite average ->
  get_stats w s
  = (Ok [ ("total_profiles", VInt (Z.of_nat (length (profiles s))));
          ("average_connections", VFloat (FFinite average));
          ("total_skills_fields",
           VInt (Z.of_nat (length (List.filter tags_nonempty (profiles s))))) ],
     s).
Proof.
  intros Hne Hall Havg. run_monad.
  destruct (profiles s) as [|p ps] eqn:Hps; [congruence |].
  unfold py_sum. rewrite (py_sum_records _ Hall 0%Z), Z.add_0_l.
  rewrite (count_skills_records _ Hall).
  cbn [py_truediv length] in *. rewrite Havg. reflexivity.
Qed.

(** C4: on a non-empty collection of records (an integer [connections] and
    a text [skills] each) whose mean is within the range of a float,
    [get_stats] returns the number of records, the arithmetic mean of
    [connections] as a float (the double nearest to the exact mean, within
    one part in [2^53] of it, and the mean itself when that is a whole number
    of less than 53 bits) and the number of records with a non-empty
    [skills]; for two records with 100 and 300 connections the mean is
    200.0. *)
Theorem get_stats_nonempty (w : env) (s : state) :
  profiles s <> [] ->
  forallb record_shaped (profiles s) = true ->
  (Qabs (mean_primary_metric (profiles s)) <= inject_Z (2 ^ 1023))%Q ->
  exists average,
    get_stats w s
    = (Ok [ ("total_profiles", VInt (Z.of_nat (length (profiles s))));
            ("average_connections", VFloat (FFinite average));
            ("total_skills_fields",
             VInt (Z.of_nat (length (List.filter tags_nonempty (profiles s))))) ],
       s)
    /\ FFinite average = round_double (mean_primary_metric (profiles s))
    /\ (Qabs (average - mean_primary_metric (profiles s))
        <= Qabs (mean_primary_metric (profiles s)) * (1 # 2 ^ 53)
           + (1 # 2 ^ 1075))%Q
    /\ (forall m : Z,
          (- 2 ^ 53 < m < 2 ^ 53)%Z ->
          (mean_primary_metric (profiles s) == inject_Z m)%Q ->
          average = m # 1)
    /\ (map primary_metric (profiles s) = [100%Z; 300%Z] ->
        average = 200 # 1).
Proof.
  intros Hne Hall Hrange.
  pose proof (quotient_is_mean _ Hne) as Hmean.
  destruct (FloatFacts.round_double_finite _ Hrange) as [average Havg].
  pose proof Havg as Hquot.
  rewrite <- (FloatFacts.round_double_proper _ _ Hmean) in Hquot.
  rewrite (get_stats_records w s average Hne Hall Hquot).
  exists average. split; [reflexivity |]. split; [now rewrite Havg |].
  split; [exact (FloatFacts.round_double_accuracy _ _ Havg) |]. split.
  - intros m Hm Heq.
    pose proof (FloatFacts.round_double_whole _ m Hm Heq) as Hw.
    rewrite Havg in Hw. now injection Hw.
  - intros Hmap.
    assert (Hq : round_double (total_primary_metric (profiles s)
                               # Pos.of_nat (length (profiles s)))
                 = whole 200).
    { unfold total_primary_metric. rewrite Hmap.
      rewrite <- (length_map primary_metric), Hmap. vm_compute. reflexivity. }
    rewrite Hquot in Hq. now injection Hq.
Qed.

Lemma get_stats_nonempty_witness :
  exists average,
    get_stats demo_env (set_profiles two_records demo_state)
    = (Ok [ ("total_profiles", VInt 2);
            ("average_connections", VFloat (FFinite average));
            ("total_skills_fields", VInt 1) ],
       set_profiles two_records demo_state)
    /\ average = 200 # 1.
Proof.
  destruct (get_stats_nonempty demo_env (set_profiles two_records demo_state))
    as (average & Hrun & _ & _ & _ & Hexample);
    [discriminate | reflexivity | vm_compute; discriminate |].
  exists average. split; [exact Hrun |].
  apply Hexample. reflexivity.
Defined.

(** C5: on an empty collection [get_stats] returns [{'total_profiles': 0}]
    without raising, and divides nothing. *)
Theorem get_stats_empty (w : env) (s : state) :
  profiles s = [] ->
  get_stats w s = (Ok [("total_profiles", VInt 0)], s).
Proof. intros H. run_monad. now rewrite H. Qed.

Lemma get_stats_empty_witness :
  get_stats demo_env demo_state = (Ok [("total_profiles", VInt 0)], demo_state).
Proof. apply (get_stats_empty demo_env demo_state). reflexivity. Defined.

(** C8: [get_stats] changes nothing (the collection, the log, the disk and
    the standard output are as before), reads nothing from the environment,
    and a second call on the state the first one leaves returns the same
    result. *)
Theorem get_stats_pure_and_idempotent (w : env) (s : state) :
  exists r,
    get_stats w s = (r, s)
    /\ get_stats w (snd (get_stats w s)) = (r, s)
    /\ profiles (snd (get_stats w s)) = profiles s
    /\ forall w', get_stats w' s = (r, s).
Proof.
  destruct (get_stats_reads_only w s) as [r Hr].
  exists r. pose proof (Hr w s eq_refl) as Hrun.
  rewrite Hrun. cbn [snd]. repeat split; auto.
Qed.

(** ** The exporters *)

(** C6: on an empty collection [save_to_csv] and [save_to_json] return
    [None], log the warning ['No profiles to save'] and leave the files as
    they were: no export file is created or written. *)
Theorem export_empty_collection (filename : string) (w : env) (s : state) :
  profiles s = [] ->
  save_to_csv w s = (Ok None, nothing_to_save s)
  /\ save_to_json filename w s = (Ok None, nothing_to_save s)
  /\ files (nothing_to_save s) = files s
  /\ log (nothing_to_save s) = log s ++ [(WARNING, MsgNothingToSave)].
Proof.
  intros H. run_monad. rewrite H. repeat split.
Qed.

Lemma export_empty_collection_witness :
  save_to_csv demo_env demo_state = (Ok None, nothing_to_save demo_state)
  /\ save_to_json "profiles.json" demo_env demo_state
     = (Ok None, nothing_to_save demo_state)
  /\ files (nothing_to_save demo_state) = files demo_state
  /\ log (nothing_to_save demo_state)
     = log demo_state ++ [(WARNING, MsgNothingToSave)].
Proof.
  apply (export_empty_collection "profiles.json" demo_env demo_state).
  reflexivity.
Defined.

(** [save_to_csv] never raises, keeps the collection and returns [None]
    when the disk refuses the write. *)
Lemma save_to_csv_total (w : env) (s : state) :
  exists r s',
    save_to_csv w s = (Ok r, s')
    /\ profiles s' = profiles s
    /\ output_csv s' = output_csv s
    /\ (disk w (output_csv s) <> IoOk -> r = None)
    /\ (profiles s <> [] -> disk w (output_csv s) <> IoOk ->
        log s' = log s ++ [(ERROR, MsgErrorCsv (OSError (output_csv s)))]).
Proof.
  run_monad. destruct (profiles s) as [|p ps] eqn:Hps.
  - eexists _, _. split; [reflexivity |].
    cbn. rewrite Hps. repeat split; congruence.
  - destruct (writerows (dict_keys p) (p :: ps)) as [written failure].
    destruct (disk w (output_csv s)) eqn:Hdisk; [destruct failure |..];
      eexists _, _; (split; [reflexivity |]);
      cbn; rewrite ?Hps; repeat split; congruence.
Qed.

Lemma save_to_json_total (filename : string) (w : env) (s : state) :
  exists r s',
    save_to_json filename w s = (Ok r, s')
    /\ profiles s' = profiles s
    /\ (disk w filename <> IoOk -> r = None)
    /\ (profiles s <> [] -> disk w filename <> IoOk ->
        log s' = log s ++ [(ERROR, MsgErrorJson (OSError filename))])
    /\ (profiles s <> [] -> disk w filename = IoOk ->
        r = Some filename
        /\ files s' = <[filename := JsonDocument (profiles s)]> (files s)).
Proof.
  run_monad. destruct (profiles s) as [|p ps] eqn:Hps.
  - eexists _, _. split; [reflexivity |].
    cbn. rewrite Hps. repeat split; congruence.
  - destruct (disk w filename) eqn:Hdisk;
      eexists _, _; (split; [reflexivity |]);
      cbn; rewrite ?Hps; repeat split; congruence.
Qed.

(** The exporters print nothing. *)
Lemma save_to_csv_stdout (w : env) (s : state) :
  stdout (snd (save_to_csv w s)) = stdout s.
Proof.
  run_monad. destruct (profiles s) as [|p ps]; [reflexivity |].
  destruct (writerows (dict_keys p) (p :: ps)) as [written failure].
  destruct (disk w (output_csv s)); [destruct failure |..]; reflexivity.
Qed.

Lemma save_to_json_stdout (filename : string) (w : env) (s : state) :
  stdout (snd (save_to_json filename w s)) = stdout s.
Proof.
  run_monad. destruct (profiles s) as [|p ps]; [reflexivity |].
  destruct (disk w filename); reflexivity.
Qed.



(** ** The collection across operations *)

Lemma known_field_member (fieldnames : list string) (k : string) :
  In k fieldnames -> known_field fieldnames k = true.
Proof.
  intros Hin. unfold known_field. apply existsb_exists.
  exists k. split; [exact Hin | apply String.eqb_refl].
Qed.

Lemma same_keys_known (fieldnames : list string) (d : dict) :
  dict_keys d = fieldnames ->
  forallb (known_field fieldnames) (dict_keys d) = true.
Proof.
  intros ->. apply forallb_forall. intros k. apply known_field_member.
Qed.

(** When no record has a key outside the header, every record gives a row. *)
Lemma writerows_all_known (fieldnames : list string) (rows : list dict) :
  forallb (fun d => forallb (known_field fieldnames) (dict_keys d)) rows = true ->
  writerows fieldnames rows = (map (dict_to_list fieldnames) rows, None).
Proof.
  induction rows as [|d rows IH]; intros Hall; [reflexivity |].
  cbn [forallb] in Hall. apply andb_prop in Hall as [Hd Hrows].
  cbn [writerows map]. rewrite Hd, (IH Hrows). reflexivity.
Qed.

Lemma dict_get_member (d : dict) (k : string) (v : pyval) :
  List.NoDup (dict_keys d) -> In (k, v) d -> dict_get d k = Some v.
Proof.
  induction d as [|[k' v'] d IH]; intros Hnd Hin; [destruct Hin |].
  cbn [dict_keys map fst] in Hnd.
  apply NoDup_cons_iff in Hnd as [Hnotin Hnd].
  cbn [dict_get]. destruct Hin as [Heq | Hin].
  - injection Heq as -> ->. now rewrite String.eqb_refl.
  - destruct (String.eqb_spec k' k) as [-> | _].
    + exfalso. apply Hnotin. apply in_map_iff. now exists (k, v).
    + now apply IH.
Qed.

(** Written under its own keys, a record gives its values in order. *)
Lemma dict_to_list_own_keys (d : dict) :
  List.NoDup (dict_keys d) -> dict_to_list (dict_keys d) d = record_cells d.
Proof.
  intros Hnd. unfold dict_to_list, dict_keys, record_cells. rewrite map_map.
  apply map_ext_in. intros [k v] Hin. cbn [fst snd].
  now rewrite (dict_get_member d k v Hnd Hin).
Qed.

Lemma writerows_same_keys (fieldnames : list string) (ps : list dict) :
  List.NoDup fieldnames ->
  Forall (fun d => dict_keys d = fieldnames) ps ->
  writerows fieldnames ps = (map record_cells ps, None).
Proof.
  intros Hnd Hall. rewrite List.Forall_forall in Hall.
  rewrite writerows_all_known.
  - f_equal. apply map_ext_in. intros d Hin.
    rewrite <- (Hall d Hin). apply dict_to_list_own_keys.
    now rewrite (Hall d Hin).
  - apply forallb_forall. intros d Hin. apply same_keys_known. now apply Hall.
Qed.




(** ** Delays and the outcome of a call *)

(** With whole delay bounds in order the delay is a finite float between
    them. *)
Lemma next_delay_whole (w : env) (s : state) (a b : Z) :
  min_delay s = whole a -> max_delay s = whole b ->
  (- 2 ^ 51 <= a)%Z -> (a <= b)%Z -> (b <= 2 ^ 51)%Z ->
  exists r,
    next_delay w s = FFinite r /\ (inject_Z a <= r /\ r <= inject_Z b)%Q.
Proof.
  intros Hmin Hmax Ha Hab Hb. unfold next_delay. rewrite Hmin, Hmax.
  destruct (FloatFacts.random_uniform_whole a b (draws w (calls s)) Ha Hab Hb)
    as (r & Hr & Hlo & Hhi).
  exists r. split; [exact Hr | split; assumption].
Qed.

(** Bounds between 0 and 9 000 000 000 seconds give a delay [time.sleep]
    accepts. *)
Lemma sleep_accepts_next_delay (w : env) (s : state) (a b : Z) :
  min_delay s = whole a -> max_delay s = whole b ->
  (0 <= a)%Z -> (a <= b)%Z -> (b <= 9000000000)%Z ->
  sleep_outcome (next_delay w s) = None.
Proof.
  intros Hmin Hmax Ha Hab Hb.
  destruct (next_delay_whole w s a b Hmin Hmax) as (r & -> & Hlo & Hhi);
    [lia | lia | lia |].
  apply FloatFacts.sleep_outcome_accepts.
  - apply Qle_trans with (inject_Z a); [| exact Hlo].
    now apply (FloatFacts.inject_Z_le 0 a).
  - apply Qle_trans with (inject_Z b); [exact Hhi |].
    now apply FloatFacts.inject_Z_le.
Qed.

(** Bounds of at most -1 second give a delay [time.sleep] refuses. *)
Lemma sleep_rejects_next_delay (w : env) (s : state) (a b : Z) :
  min_delay s = whole a -> max_delay s = whole b ->
  (- 2 ^ 51 <= a)%Z -> (a <= b)%Z -> (b <= -1)%Z ->
  exists e, sleep_outcome (next_delay w s) = Some e.
Proof.
  intros Hmin Hmax Ha Hab Hb.
  destruct (next_delay_whole w s a b Hmin Hmax) as (r & -> & Hlo & Hhi);
    [lia | lia | lia |].
  apply FloatFacts.sleep_outcome_rejects.
  apply Qle_trans with (inject_Z b); [exact Hhi |].
  now apply (FloatFacts.inject_Z_le b (-1)).
Qed.

(** What [time.sleep] does at the edges: it accepts zero and the longest
    delay that fits the clock, and refuses a negative delay, a delay of ten
    thousand million seconds, an infinity and a NaN. *)
Lemma sleep_outcome_samples :
  sleep_outcome (whole 0) = None
  /\ sleep_outcome (whole 9223372036) = None
  /\ sleep_outcome (whole 9223372037) = Some sleep_overflow
  /\ sleep_outcome (whole 10000000000) = Some sleep_overflow
  /\ sleep_outcome (FInf false) = Some sleep_overflow
  /\ sleep_outcome (whole (-1)) = Some sleep_error
  /\ sleep_outcome FNaN = Some (ValueError "Invalid value NaN (not a number)").
Proof. vm_compute. repeat split. Qed.

(** Outside the bounds covered above the delay can leave them, as it does
    in Python: with bounds [-2^1023] and [2^1023] their difference overflows
    and the delay is an infinity, or a NaN when the draw is zero; with the
    bounds [-2^-1074] and [0] the delay can round to zero, which
    [time.sleep] accepts. *)
Lemma random_uniform_samples :
  let half := mkDraw (2 ^ 52) 0 0 EmptyString in
  let zero := mkDraw 0 0 0 EmptyString in
  let three_quarters := mkDraw (3 * 2 ^ 51) 0 0 EmptyString in
  random_uniform (whole (- 2 ^ 1023)) (whole (2 ^ 1023)) half = FInf false
  /\ random_uniform (whole (- 2 ^ 1023)) (whole (2 ^ 1023)) zero = FNaN
  /\ random_uniform (FFinite (- 1 # 2 ^ 1074)) (whole 0) three_quarters
     = FFinite 0
  /\ random_uniform (whole 2) (whole 5) half = FFinite (7 # 2).
Proof. vm_compute. repeat split. Qed.

Lemma fadd_canonical (x y : pyfloat) (r : Q) :
  fadd x y = FFinite r -> Qred r = r.
Proof.
  destruct x as [a | a |], y as [b | b |]; cbn [fadd]; try discriminate.
  - apply FloatFacts.round_double_canonical.
  - destruct (Bool.eqb a b); discriminate.
Qed.

(** A delay of ten thousand million seconds does not fit the clock: the call
    fails, returns [None] and leaves the collection as it was. *)
Lemma simulate_profile_data_long_delay (url : string) (w : env) (s : state) :
  min_delay s = whole 10000000000 ->
  max_delay s = whole 10000000000 ->
  exists s',
    simulate_profile_data url w s = (Ok None, s')
    /\ profiles s' = profiles s
    /\ log s' = log s ++ [ (INFO, MsgRateLimiting (whole 10000000000));
                           (ERROR, MsgErrorProcessing url sleep_overflow) ].
Proof.
  intros Hmin Hmax.
  destruct (next_delay_whole w s 10000000000 10000000000 Hmin Hmax)
    as (r & Hr & Hlo & Hhi); [lia | lia | lia |].
  assert (Hcanon : Qred r = r).
  { apply (fadd_canonical (min_delay s)
             (fmul (fsub (max_delay s) (min_delay s))
                   (random_random (draws w (calls s))))).
    exact Hr. }
  assert (Heq : r = 10000000000 # 1).
  { rewrite <- Hcanon.
    change (10000000000 # 1) with (Qred (inject_Z 10000000000)).
    apply Qred_complete. now apply Qle_antisym. }
  rewrite simulate_profile_data_run. cbv zeta. rewrite Hr, Heq.
  change (sleep_outcome (FFinite (10000000000 # 1))) with (Some sleep_overflow).
  eexists. split; [reflexivity |]. split; [reflexivity |].
  cbn [log]. now rewrite <- app_assoc.
Qed.

Lemma outcomes_all_succeed (urls : list string) (w : env) (a b : Z) :
  (0 <= a)%Z -> (a <= b)%Z -> (b <= 9000000000)%Z ->
  forall s,
    min_delay s = whole a -> max_delay s = whole b ->
    forallb is_some (outcomes urls w s) = true.
Proof.
  intros Ha Hab Hb.
  induction urls as [|url urls IH]; intros s Hmin Hmax; [reflexivity |].
  cbn [outcomes]. rewrite simulate_profile_data_run. cbv zeta.
  rewrite (sleep_accepts_next_delay w s a b Hmin Hmax Ha Hab Hb).
  cbn [forallb is_some andb]. apply IH; assumption.
Qed.

Lemma outcomes_all_fail (urls : list string) (w : env) (a b : Z) :
  (- 2 ^ 51 <= a)%Z -> (a <= b)%Z -> (b <= -1)%Z ->
  forall s,
    min_delay s = whole a -> max_delay s = whole b ->
    successes (outcomes urls w s) = [].
Proof.
  intros Ha Hab Hb.
  induction urls as [|url urls IH]; intros s Hmin Hmax; [reflexivity |].
  cbn [outcomes]. rewrite simulate_profile_data_run. cbv zeta.
  destruct (sleep_rejects_next_delay w s a b Hmin Hmax Ha Hab Hb) as [e ->].
  unfold successes in *. cbn [omap list_omap id]. apply IH; assumption.
Qed.

(** ** What the collection of a scraper holds *)

Lemma random_randint_range (a b raw : Z) :
  (a <= b)%Z -> (a <= random_randint a b raw <= b)%Z.
Proof.
  intros H. unfold random_randint.
  pose proof (Z.mod_pos_bound raw (b - a + 1) ltac:(lia)). lia.
Qed.

Lemma profile_record_shaped (url : string) (d : draw) :
  record_shaped (profile_record url d) = true.
Proof. reflexivity. Qed.

Lemma outcomes_simulated (urls : list string) (w : env) :
  forall s, Forall simulated_record (successes (outcomes urls w s)).
Proof.
  induction urls as [|url urls IH]; intros s; [constructor |].
  cbn [outcomes]. rewrite simulate_profile_data_run. cbv zeta.
  destruct (sleep_outcome _); unfold successes in *; cbn [omap list_omap id].
  - apply IH.
  - constructor; [now eexists _, _ | apply IH].
Qed.

(** The collection of a scraper object holds records built by
    [simulate_profile_data] and nothing else. *)
Lemma reachable_simulated (w : env) (s : state) :
  reachable w s -> Forall simulated_record (profiles s).
Proof.
  induction 1 as [s path lo hi | s o _ IH].
  - run_monad. destruct (disk w log_file); constructor.
  - destruct o as [url | urls | | filename |]; cbn [run_operation].
    + rewrite simulate_profile_data_run. cbv zeta.
      destruct (sleep_outcome _); cbn [snd profiles]; [exact IH |].
      apply Forall_app. split; [exact IH |].
      constructor; [now eexists _, _ | constructor].
    + destruct (scrape_profiles_run urls w s) as (s' & Hrun & Hps & _).
      rewrite Hrun. cbn [snd]. rewrite Hps.
      apply Forall_app. split; [exact IH |].
      apply outcomes_simulated.
    + destruct (save_to_csv_total w s) as (r & s' & Hrun & Hps & _).
      rewrite Hrun. cbn [snd]. now rewrite Hps.
    + destruct (save_to_json_total filename w s) as (r & s' & Hrun & Hps & _).
      rewrite Hrun. cbn [snd]. now rewrite Hps.
    + destruct (get_stats_reads_only w s) as [r Hr].
      rewrite (Hr w s eq_refl). exact IH.
Qed.

Lemma simulated_metric_range (ps : list dict) :
  Forall simulated_record ps ->
  forallb record_shaped ps = true
  /\ List.filter tags_nonempty ps = ps
  /\ (100 * Z.of_nat (length ps) <= total_primary_metric ps
      <= 5000 * Z.of_nat (length ps))%Z.
Proof.
  unfold total_primary_metric.
  induction 1 as [|r ps (url & d & ->) _ (IH1 & IH2 & IH3)];
    [repeat split; cbn; lia |].
  split; [| split].
  - cbn [forallb]. rewrite IH1. reflexivity.
  - cbn [List.filter].
    change (tags_nonempty (profile_record url d)) with true.
    cbv iota. now rewrite IH2.
  - cbn [map fold_right length].
    change (primary_metric (profile_record url d))
      with (random_randint 100 5000 (connections_raw d)).
    pose proof (random_randint_range 100 5000 (connections_raw d) ltac:(lia)).
    lia.
Qed.

(** The mean of values within 100..5000 rounds to a float within 100..5000. *)
Lemma simulated_average (ps : list dict) :
  ps <> [] ->
  Forall simulated_record ps ->
  exists average,
    round_double (total_primary_metric ps # Pos.of_nat (length ps))
    = FFinite average
    /\ (100 <= average /\ average <= 5000)%Q.
Proof.
  intros Hne Hsim.
  destruct (simulated_metric_range _ Hsim) as (_ & _ & Hrange).
  destruct ps as [|p ps]; [congruence |].
  apply (FloatFacts.round_double_between_whole _ 100 5000);
    [reflexivity | reflexivity | |];
    unfold Qle; cbn [Qnum Qden inject_Z length] in *;
    rewrite <- Pos.of_nat_succ, Zpos_P_of_succ_nat, <- Nat2Z.inj_succ; lia.
Qed.

(** ** The script *)

Lemma bind_raise {A B} (m : M A) (k : A -> M B) (w : env) (s : state)
    (e : exn) (s' : state) :
  m w s = (Raise e, s') -> bind m k w s = (Raise e, s').
Proof. intros H. unfold bind. now rewrite H. Qed.

Lemma init_run (path : string) (lo hi : pyfloat) (w : env) (s : state) :
  init path lo hi w s
  = match disk w log_file with
    | IoOpenFails =>
        (Raise (OSError log_file),
         mkState path lo hi [] (calls s) (log s) (files s) (stdout s))
    | _ =>
        (Ok tt,
         mkState path lo hi [] (calls s) (log s ++ [(INFO, MsgInitialized)])
                 (<[log_file := LogFile]> (files s)) (stdout s))
    end.
Proof. run_monad. destruct (disk w log_file); reflexivity. Qed.

(** Once [requests] is imported and the log file opened, the script is at
    its pipeline. *)
Lemma main_starts (urls : list string) (w : env)
    (disk0 : gmap string file_content) :
  requests_installed w = true ->
  disk w log_file <> IoOpenFails ->
  main urls w (boot disk0)
  = (let! _profiles := scrape_profiles urls in
     let! csv_file := save_to_csv in
     let! json_file := save_to_json default_json_filename in
     let! stats := get_stats in
     print_summary stats csv_file json_file) w (started disk0).
Proof.
  intros Hreq Hlog. unfold main.
  rewrite (bind_ok import_requests _ w (boot disk0) tt (boot disk0))
    by (unfold import_requests; now rewrite Hreq).
  rewrite (bind_ok (init "profiles.csv" (whole 2) (whole 5)) _
             w (boot disk0) tt (started disk0)); [reflexivity |].
  rewrite init_run. destruct (disk w log_file); [| congruence |]; reflexivity.
Qed.

(** Without [requests], or when the log file cannot be opened, the script
    ends with status 1 before it scrapes anything. *)
Lemma main_fails_to_start (urls : list string) (w : env)
    (disk0 : gmap string file_content) :
  requests_installed w = false \/ disk w log_file = IoOpenFails ->
  exit_status (fst (main urls w (boot disk0))) = 1%Z.
Proof.
  intros Hcase. unfold main.
  destruct (requests_installed w) eqn:Hreq.
  - destruct Hcase as [Hf | Hlog]; [discriminate |].
    rewrite (bind_ok import_requests _ w (boot disk0) tt (boot disk0))
      by (unfold import_requests; now rewrite Hreq).
    pose proof (init_run "profiles.csv" (whole 2) (whole 5) w (boot disk0))
      as Hinit.
    rewrite Hlog in Hinit.
    rewrite (bind_raise _ _ _ _ _ _ Hinit). reflexivity.
  - assert (Himport : import_requests w (boot disk0)
                      = (Raise (SystemExit 1),
                         set_stdout [OutInstallHint] (boot disk0))).
    { unfold import_requests. rewrite Hreq. reflexivity. }
    rewrite (bind_raise _ _ _ _ _ _ Himport). reflexivity.
Qed.

(** The summary of a dictionary with the three entries is printed whole. *)
Lemma print_summary_run (total skills : pyval) (average : pyfloat)
    (csv_file json_file : option string) (w : env) (s : state) :
  print_summary [ ("total_profiles", total);
                  ("average_connections", VFloat average);
                  ("total_skills_fields", skills) ] csv_file json_file w s
  = (Ok tt,
     set_stdout (stdout s ++ [ OutBanner; OutTotal total;
                               OutAverage (VFloat average); OutSavedTo;
                               OutCsv csv_file; OutJson json_file;
                               OutNoteSimulated; OutNoteToS ]) s).
Proof.
  unfold print_summary. run_monad. unfold set_stdout.
  cbn [dict_get String.eqb Ascii.eqb Bool.eqb
       output_csv min_delay max_delay profiles calls log files stdout].
  rewrite <- !app_assoc. reflexivity.
Qed.

(** C3 fails on the code when the collection is empty: [get_stats] then
    returns a dictionary without ['average_connections'], the summary asks
    for that key, and the [KeyError] ends the process with a failure status
    after two lines of the summary.  With an empty list of identifiers the
    exit status is 1 in every environment; where the script gets as far as
    its pipeline ([requests] installed, the log file opened) it is the
    [KeyError] that ends it, and no export file is written. *)
Theorem main_raises_on_empty_collection
    (w : env) (disk0 : gmap string file_content) :
  exit_status (fst (main [] w (boot disk0))) = 1%Z
  /\ (requests_installed w = true ->
      disk w log_file <> IoOpenFails ->
      exists s',
        main [] w (boot disk0) = (Raise (KeyError "average_connections"), s')
        /\ profiles s' = []
        /\ stdout s' = [OutBanner; OutTotal (VInt 0)]
        /\ files s' = <[log_file := LogFile]> disk0).
Proof.
  assert (Hrun : requests_installed w = true ->
                 disk w log_file <> IoOpenFails ->
                 exists s',
                   main [] w (boot disk0)
                   = (Raise (KeyError "average_connections"), s')
                   /\ profiles s' = []
                   /\ stdout s' = [OutBanner; OutTotal (VInt 0)]
                   /\ files s' = <[log_file := LogFile]> disk0).
  { intros Hreq Hlog. rewrite (main_starts [] w disk0 Hreq Hlog).
    eexists. repeat split. }
  split; [| exact Hrun].
  destruct (requests_installed w) eqn:Hreq;
    [| apply main_fails_to_start; now left].
  destruct (disk w log_file) eqn:Hlog;
    [| apply main_fails_to_start; now right |];
    (destruct Hrun as (s' & -> & _); [reflexivity | congruence | reflexivity]).
Qed.

Lemma main_raises_on_empty_collection_witness :
  exists s',
    main [] demo_env (boot ∅) = (Raise (KeyError "average_connections"), s')
    /\ profiles s' = []
    /\ stdout s' = [OutBanner; OutTotal (VInt 0)]
    /\ files s' = <[log_file := LogFile]> ∅.
Proof.
  destruct (main_raises_on_empty_collection demo_env ∅) as [_ H].
  apply H; [reflexivity | discriminate].
Defined.

(** Under the delays of [__main__] every call succeeds. *)
Lemma outcomes_default_delays (urls : list string) (w : env) (s : state) :
  min_delay s = whole 2 -> max_delay s = whole 5 ->
  length (successes (outcomes urls w s)) = length urls
  /\ map (fun record => dict_get record "profile_url")
         (successes (outcomes urls w s))
     = map (fun url => Some (VStr url)) urls.
Proof.
  intros Hmin Hmax.
  destruct (for_each_url_run urls w s) as (_ & _ & _ & _ & Hall & _).
  apply (all_records _ _ Hall).
  apply (outcomes_all_succeed urls w 2 5); [lia | lia | lia | assumption..].
Qed.

(** With at least one identifier the script completes, when [requests] is
    installed and the log file can be opened: every synthesis succeeds under
    the delays of [__main__], the two exports are attempted whatever the disk
    does with their paths, and the eight lines of the summary are printed. *)
Theorem main_completes_on_identifiers
    (urls : list string) (w : env) (disk0 : gmap string file_content) :
  urls <> [] ->
  requests_installed w = true ->
  disk w log_file <> IoOpenFails ->
  exists s' total average csv_file json_file,
    main urls w (boot disk0) = (Ok tt, s')
    /\ exit_status (fst (main urls w (boot disk0))) = 0%Z
    /\ length (profiles s') = length urls
    /\ stdout s' = [ OutBanner; OutTotal total;
                     OutAverage (VFloat (FFinite average)); OutSavedTo;
                     OutCsv csv_file; OutJson json_file;
                     OutNoteSimulated; OutNoteToS ]
    /\ (100 <= average /\ average <= 5000)%Q.
Proof.
  intros Hne Hreq Hlog.
  pose (s0 := started disk0).
  destruct (scrape_profiles_run urls w s0)
    as (s1 & Hscrape & Hps1 & _ & _ & _ & _ & _ & Hout1).
  destruct (outcomes_default_delays urls w s0 eq_refl eq_refl) as [Hlen _].
  cbn [s0 started profiles app] in Hscrape, Hps1. fold s0 in Hscrape, Hps1.
  destruct (save_to_csv_total w s1) as (r2 & s2 & Hcsv & Hps2 & _).
  destruct (save_to_json_total default_json_filename w s2)
    as (r3 & s3 & Hjson & Hps3 & _).
  assert (Hps : profiles s3 = successes (outcomes urls w s0)) by congruence.
  assert (Hstd : stdout s3 = []).
  { pose proof (save_to_json_stdout default_json_filename w s2) as H3.
    pose proof (save_to_csv_stdout w s1) as H2.
    rewrite Hjson in H3. rewrite Hcsv in H2. cbn [snd] in H2, H3.
    rewrite H3, H2, Hout1. reflexivity. }
  assert (Hnonempty : profiles s3 <> []).
  { rewrite Hps. intros Hnil. rewrite Hnil in Hlen.
    destruct urls; [exact (Hne eq_refl) | cbn [length] in Hlen; lia]. }
  assert (Hsim : Forall simulated_record (profiles s3)).
  { rewrite Hps. apply outcomes_simulated. }
  destruct (simulated_metric_range _ Hsim) as (Hshape3 & _ & _).
  destruct (simulated_average _ Hnonempty Hsim) as (average & Havg & Hrange).
  pose proof (get_stats_records w s3 average Hnonempty Hshape3 Havg) as Hstats.
  assert (Hrun : exists lines,
             main urls w (boot disk0) = (Ok tt, set_stdout lines s3)
             /\ exists total,
                 lines = [ OutBanner; OutTotal total;
                           OutAverage (VFloat (FFinite average));
                           OutSavedTo; OutCsv r2; OutJson r3;
                           OutNoteSimulated; OutNoteToS ]).
  { eexists. split.
    - rewrite (main_starts urls w disk0 Hreq Hlog). fold s0.
      rewrite (bind_ok _ _ _ _ _ _ Hscrape).
      rewrite (bind_ok _ _ _ _ _ _ Hcsv).
      rewrite (bind_ok _ _ _ _ _ _ Hjson).
      rewrite (bind_ok _ _ _ _ _ _ Hstats).
      rewrite print_summary_run, Hstd. reflexivity.
    - eexists. reflexivity. }
  destruct Hrun as (lines & Hrun & total & Hlines).
  exists (set_stdout lines s3), total, average, r2, r3.
  rewrite Hrun. cbn [fst exit_status set_stdout profiles stdout].
  split; [reflexivity |]. split; [reflexivity |].
  split; [congruence |]. split; [exact Hlines | exact Hrange].
Qed.

Lemma main_completes_on_identifiers_witness :
  exit_status (fst (main sample_profiles demo_env (boot ∅))) = 0%Z
  /\ length (profiles (snd (main sample_profiles demo_env (boot ∅)))) = 20.
Proof.
  destruct (main_completes_on_identifiers sample_profiles demo_env ∅)
    as (s' & total & average & csv_file & json_file & Hrun & Hexit & Hlen & _);
    [discriminate | reflexivity | discriminate |].
  split; [exact Hexit |]. rewrite Hrun. exact Hlen.
Defined.
(** * Further properties of the pipeline *)

(** ** More on the derived key *)

Section DerivedKeyShape.
Import PyStr PyStrFacts.

(** The last piece of the split ends the identifier and holds no marker. *)
Lemma last_piece_shape (s : string) :
  exists p,
    s = p +:+ last_piece (split s marker)
    /\ contains (last_piece (split s marker)) marker = false
    /\ (p = EmptyString \/ exists p', p = p' +:+ marker).
Proof.
  destruct (contains s marker) eqn:Hc.
  - destruct (last_piece_after_marker _ s (Nat.le_refl _) Hc)
      as (p & t & Hs & Ht & Hl).
    exists (p +:+ marker). rewrite Hl, append_assoc.
    split; [exact Hs |]. split; [exact Ht |]. right. now exists p.
  - unfold contains in Hc.
    destruct (partition s marker) eqn:Hp; [discriminate |].
    rewrite (split_absent _ _ Hp). cbn [last_piece List.last].
    exists EmptyString. split; [reflexivity |]. split; [| now left].
    unfold contains. now rewrite Hp.
Qed.

Lemma contains_false_prefix (k rest : string) :
  contains (k +:+ rest) marker = false -> contains k marker = false.
Proof.
  unfold contains. intros H.
  destruct (partition k marker) as [[b a] |] eqn:Hk; [| reflexivity].
  apply partition_Some in Hk.
  destruct (partition (k +:+ rest) marker) eqn:Hp; [discriminate |].
  exfalso. apply (partition_None _ _ Hp b (a +:+ rest)).
  now rewrite Hk, !append_assoc.
Qed.

(** The derived key is a stretch of the identifier: what comes before it is
    empty or ends with the marker, and only ['/'] characters follow it. *)
Theorem derived_key_position (identifier : string) :
  exists before n,
    identifier
    = before +:+ extract_username identifier +:+ repeat_char "/"%char n
    /\ (before = EmptyString \/ exists p, before = p +:+ marker)
    /\ String.length (extract_username identifier) <= String.length identifier.
Proof.
  destruct (last_piece_shape identifier) as (p & Hs & _ & Hp).
  destruct (rstrip_spec (last_piece (split identifier marker)) "/"%char)
    as [_ [n Hn]].
  exists p, n. unfold extract_username.
  split; [| split; [exact Hp |]].
  - now rewrite <- Hn.
  - rewrite Hs at 2. rewrite Hn at 2. rewrite !length_append. lia.
Qed.

(** The derived key holds no marker and no trailing ['/'], so extracting a
    key from a key gives it back. *)
Theorem derived_key_is_fixed_point (identifier : string) :
  contains (extract_username identifier) marker = false
  /\ endswith (extract_username identifier) "/" = false
  /\ extract_username (extract_username identifier)
     = extract_username identifier.
Proof.
  destruct (last_piece_shape identifier) as (p & _ & Hfree & _).
  destruct (rstrip_spec (last_piece (split identifier marker)) "/"%char)
    as [Hend [n Hn]].
  fold (extract_username identifier) in Hend, Hn.
  assert (Hk : contains (extract_username identifier) marker = false).
  { rewrite Hn in Hfree. now apply contains_false_prefix in Hfree. }
  split; [exact Hk |]. split; [exact Hend |].
  unfold extract_username at 1. unfold contains in Hk.
  destruct (partition (extract_username identifier) marker) eqn:Hp;
    [discriminate |].
  rewrite (split_absent _ _ Hp). cbn [last_piece List.last].
  now apply rstrip_keep.
Qed.

End DerivedKeyShape.

(** ** Delays and the outcome of a batch *)

(** The delay a call waits for, and logs, lies between the two bounds of the
    object when they are whole numbers of seconds, in order and of at most
    [2^51] in size. *)
Theorem delay_within_bounds (url : string) (w : env) (s : state) (a b : Z) :
  min_delay s = whole a -> max_delay s = whole b ->
  (- 2 ^ 51 <= a)%Z -> (a <= b)%Z -> (b <= 2 ^ 51)%Z ->
  exists delay rest,
    log (snd (simulate_profile_data url w s))
    = log s ++ (INFO, MsgRateLimiting (FFinite delay)) :: rest
    /\ (inject_Z a <= delay /\ delay <= inject_Z b)%Q.
Proof.
  intros Hmin Hmax Ha Hab Hb. rewrite simulate_profile_data_run. cbv zeta.
  destruct (next_delay_whole w s a b Hmin Hmax Ha Hab Hb) as (r & -> & Hr).
  exists r.
  destruct (sleep_outcome _); cbn [snd log]; eexists;
    (split; [rewrite <- !app_assoc; reflexivity | exact Hr]).
Qed.

Lemma delay_within_bounds_witness :
  exists delay rest,
    log (snd (simulate_profile_data "a/in/b" demo_env demo_state))
    = log demo_state ++ (INFO, MsgRateLimiting (FFinite delay)) :: rest
    /\ (inject_Z 2 <= delay /\ delay <= inject_Z 5)%Q.
Proof.
  apply (delay_within_bounds "a/in/b" demo_env demo_state 2 5);
    [reflexivity | reflexivity | lia | lia | lia].
Defined.



Lemma count_errors_app (a b : list (level * logmsg)) :
  count_errors (a ++ b) = (count_errors a + count_errors b)%nat.
Proof. unfold count_errors. now rewrite List.filter_app, length_app. Qed.

(** The loop logs one error line for each call that failed, and no other. *)
Lemma for_each_url_log (urls : list string) (w : env) :
  forall s, exists s' entries,
    for_each_url urls w s = (Ok tt, s')
    /\ log s' = log s ++ entries
    /\ (count_errors entries + length (successes (outcomes urls w s))
        = length urls)%nat.
Proof.
  induction urls as [|url urls IH]; intros s.
  - exists s, []. cbn. now rewrite app_nil_r.
  - cbn [for_each_url outcomes]. unfold bind at 1.
    rewrite simulate_profile_data_run. cbv zeta.
    destruct (sleep_outcome (next_delay w s)) as [e |].
    + match goal with |- context [for_each_url urls w ?s1] =>
        destruct (IH s1) as (s' & entries & Hrun & Hlog & Hcount)
      end.
      cbn [log] in Hlog. rewrite Hrun.
      exists s', ([(INFO, MsgRateLimiting (next_delay w s));
                   (ERROR, MsgErrorProcessing url e)] ++ entries).
      split; [reflexivity |]. split.
      * rewrite Hlog, <- !app_assoc. reflexivity.
      * rewrite count_errors_app.
        change (count_errors [(INFO, MsgRateLimiting (next_delay w s));
                              (ERROR, MsgErrorProcessing url e)])
          with 1%nat.
        unfold successes in *. cbn [omap list_omap id length] in *. lia.
    + match goal with |- context [for_each_url urls w ?s1] =>
        destruct (IH s1) as (s' & entries & Hrun & Hlog & Hcount)
      end.
      cbn [log] in Hlog. rewrite Hrun.
      exists s', ([(INFO, MsgRateLimiting (next_delay w s));
                   (INFO, MsgProcessing url);
                   (INFO, MsgProcessed (extract_username url))] ++ entries).
      split; [reflexivity |]. split.
      * rewrite Hlog, <- !app_assoc. reflexivity.
      * rewrite count_errors_app.
        change (count_errors [(INFO, MsgRateLimiting (next_delay w s));
                              (INFO, MsgProcessing url);
                              (INFO, MsgProcessed (extract_username url))])
          with 0%nat.
        unfold successes in *. cbn [omap list_omap id length] in *. lia.
Qed.

(** Every identifier of a batch is accounted for: [scrape_profiles] frames
    the batch with its start line and its completion line, the latter
    carrying the size of the collection, and in between there is one error
    line for each identifier that gave no record. *)
Theorem scrape_profiles_accounts_for_every_identifier
    (urls : list string) (w : env) (s : state) :
  exists s' entries,
    snd (scrape_profiles urls w s) = s'
    /\ log s' = log s ++ [(INFO, MsgStarting (length urls))] ++ entries
                  ++ [(INFO, MsgComplete (length (profiles s')))]
    /\ (length (profiles s') + count_errors entries
        = length (profiles s) + length urls)%nat.
Proof.
  pose (s0 := set_log (log s ++ [(INFO, MsgStarting (length urls))]) s).
  destruct (for_each_url_log urls w s0) as (s1 & entries & Hrun & Hlog & Hcount).
  destruct (for_each_url_run urls w s0) as (s1' & Hrun' & Hps & _).
  assert (s1' = s1) by congruence. subst s1'.
  rewrite (outcomes_ext urls w s0 s) in Hps, Hcount by reflexivity.
  eexists _, entries. split; [reflexivity |].
  unfold scrape_profiles.
  rewrite (bind_ok (logger INFO (MsgStarting (length urls))) _ w s tt s0
             eq_refl).
  rewrite (bind_ok _ _ _ _ _ _ Hrun).
  run_monad. cbn [snd log profiles set_log].
  rewrite Hlog, Hps, length_app. cbn [s0 log profiles set_log].
  split; [now rewrite <- !app_assoc | lia].
Qed.

(** A scraper whose delay bounds are whole numbers of seconds of at most -1
    produces nothing: every call fails in [time.sleep], the collection stays
    as it was, and the log gets one error line per identifier. *)
Theorem scrape_profiles_under_negative_delays
    (urls : list string) (w : env) (s : state) (a b : Z) :
  min_delay s = whole a -> max_delay s = whole b ->
  (- 2 ^ 51 <= a)%Z -> (a <= b)%Z -> (b <= -1)%Z ->
  exists s' entries,
    scrape_profiles urls w s = (Ok (profiles s), s')
    /\ profiles s' = profiles s
    /\ log s' = log s ++ [(INFO, MsgStarting (length urls))] ++ entries
                  ++ [(INFO, MsgComplete (length (profiles s)))]
    /\ count_errors entries = length urls.
Proof.
  intros Hmin Hmax Ha Hab Hb.
  pose (s0 := set_log (log s ++ [(INFO, MsgStarting (length urls))]) s).
  destruct (for_each_url_log urls w s0) as (s1 & entries & Hrun & Hlog & Hcount).
  destruct (for_each_url_run urls w s0) as (s1' & Hrun' & Hps & _).
  assert (s1' = s1) by congruence. subst s1'.
  rewrite (outcomes_ext urls w s0 s) in Hps, Hcount by reflexivity.
  rewrite (outcomes_all_fail urls w a b Ha Hab Hb s Hmin Hmax) in Hps, Hcount.
  rewrite app_nil_r in Hps. cbn [length] in Hcount.
  change (profiles s0) with (profiles s) in Hps.
  change (log s0) with (log s ++ [(INFO, MsgStarting (length urls))]) in Hlog.
  eexists _, entries.
  unfold scrape_profiles.
  rewrite (bind_ok (logger INFO (MsgStarting (length urls))) _ w s tt s0
             eq_refl).
  rewrite (bind_ok _ _ _ _ _ _ Hrun).
  run_monad. cbn [profiles set_log]. rewrite Hps.
  split; [reflexivity |]. cbn [log profiles].
  split; [exact Hps |].
  split; [now rewrite Hlog, <- !app_assoc | lia].
Qed.

Lemma scrape_profiles_under_negative_delays_witness :
  let s := mkState "profiles.csv" (whole (-2)) (whole (-1)) two_records 0 []
                   ∅ [] in
  exists s' entries,
    scrape_profiles ["a"; "b"; "c"] demo_env s = (Ok two_records, s')
    /\ profiles s' = two_records
    /\ log s' = [(INFO, MsgStarting 3)] ++ entries ++ [(INFO, MsgComplete 2)]
    /\ count_errors entries = 3%nat.
Proof.
  cbv zeta.
  apply (scrape_profiles_under_negative_delays ["a"; "b"; "c"] demo_env
           (mkState "profiles.csv" (whole (-2)) (whole (-1)) two_records 0 []
                    ∅ []) (-2) (-1));
    [reflexivity | reflexivity | lia | lia | lia].
Defined.

(** Cutting a batch in two changes nothing for the collection: the calls
    made for [urls1 ++ urls2] are those made for [urls1] followed by those
    made for [urls2] from where the first batch stopped. *)
Lemma outcomes_app (urls1 urls2 : list string) (w : env) :
  forall s,
    outcomes (urls1 ++ urls2) w s
    = outcomes urls1 w s ++ outcomes urls2 w (snd (for_each_url urls1 w s)).
Proof.
  induction urls1 as [|url urls1 IH]; intros s; [reflexivity |].
  cbn [app outcomes for_each_url]. unfold bind at 1.
  destruct (simulate_profile_data_profiles url w s) as (r & s1 & Hrun & _).
  rewrite Hrun. cbn [app]. now rewrite IH.
Qed.

(** Splitting a batch in two gives the same result: [scrape_profiles] on
    [urls1 ++ urls2] returns the same list, leaves the same collection and
    takes the same number of draws as [scrape_profiles] on [urls1] followed
    by [scrape_profiles] on [urls2]. *)
Theorem scrape_profiles_in_two_batches
    (urls1 urls2 : list string) (w : env) (s : state) :
  let s1 := snd (scrape_profiles urls1 w s) in
  let s2 := snd (scrape_profiles urls2 w s1) in
  let s12 := snd (scrape_profiles (urls1 ++ urls2) w s) in
  profiles s12 = profiles s2
  /\ calls s12 = calls s2
  /\ fst (scrape_profiles (urls1 ++ urls2) w s)
     = fst (scrape_profiles urls2 w s1).
Proof.
  cbv zeta.
  destruct (scrape_profiles_run (urls1 ++ urls2) w s)
    as (s12 & Hrun12 & Hps12 & Hc12 & _).
  destruct (scrape_profiles_run urls1 w s)
    as (s1 & Hrun1 & Hps1 & Hc1 & Hmin1 & Hmax1 & _).
  destruct (scrape_profiles_run urls2 w s1) as (s2 & Hrun2 & Hps2 & Hc2 & _).
  rewrite Hrun12, Hrun1. cbn [snd fst]. rewrite Hrun2. cbn [snd fst].
  destruct (for_each_url_run urls1 w s)
    as (t1 & Ht1 & _ & _ & _ & Htc & Htmin & Htmax & _).
  assert (Hout : outcomes (urls1 ++ urls2) w s
                 = outcomes urls1 w s ++ outcomes urls2 w s1).
  { rewrite outcomes_app, Ht1. cbn [snd]. f_equal.
    apply outcomes_ext; congruence. }
  assert (Hsucc : successes (outcomes (urls1 ++ urls2) w s)
                  = successes (outcomes urls1 w s)
                      ++ successes (outcomes urls2 w s1)).
  { rewrite Hout. unfold successes. apply omap_app. }
  rewrite Hps12, Hps2, Hps1, Hc12, Hc2, Hc1, Hsucc, length_app.
  rewrite <- !app_assoc. repeat split; try reflexivity. lia.
Qed.

(** ** The records of a scraper *)

(** Whatever the order and number of the operations applied to a scraper
    since [__init__], every record of its collection has the twelve fields
    of the source in source order, a [username] derived from its
    [profile_url], [connections] within 100..5000, [endorsements] within
    0..500, a non-empty [skills] and the marker of simulated data. *)
Theorem reachable_records_are_simulated (w : env) (s : state) :
  reachable w s ->
  Forall (fun r =>
            dict_keys r = field_names
            /\ (exists url,
                  dict_get r "profile_url" = Some (VStr url)
                  /\ dict_get r "username" = Some (VStr (extract_username url)))
            /\ (exists n, dict_get r "connections" = Some (VInt n)
                          /\ (100 <= n <= 5000)%Z)
            /\ (exists n, dict_get r "endorsements" = Some (VInt n)
                          /\ (0 <= n <= 500)%Z)
            /\ tags_nonempty r = true
            /\ dict_get r "data_type"
               = Some (VStr "SIMULATED - FOR DEMONSTRATION ONLY"))
         (profiles s).
Proof.
  intros Hreach. apply reachable_simulated in Hreach.
  eapply Forall_impl; [exact Hreach |].
  intros r (url & d & ->).
  split; [reflexivity |].
  split; [exists url; split; reflexivity |].
  split; [eexists; split; [reflexivity | apply random_randint_range; lia] |].
  split; [eexists; split; [reflexivity | apply random_randint_range; lia] |].
  split; reflexivity.
Qed.

Lemma reachable_records_are_simulated_witness :
  Forall (fun r =>
            dict_keys r = field_names
            /\ (exists url,
                  dict_get r "profile_url" = Some (VStr url)
                  /\ dict_get r "username" = Some (VStr (extract_username url)))
            /\ (exists n, dict_get r "connections" = Some (VInt n)
                          /\ (100 <= n <= 5000)%Z)
            /\ (exists n, dict_get r "endorsements" = Some (VInt n)
                          /\ (0 <= n <= 500)%Z)
            /\ tags_nonempty r = true
            /\ dict_get r "data_type"
               = Some (VStr "SIMULATED - FOR DEMONSTRATION ONLY"))
         (profiles (run_operation (OpScrape ["a/in/b"; "c"]) demo_env
                      (snd (init "out.csv" (whole 2) (whole 5) demo_env
                              (boot ∅))))).
Proof.
  apply (reachable_records_are_simulated demo_env).
  apply reachable_step, reachable_init.
Defined.

(** On the collection of a scraper [get_stats] never raises; when the
    collection is not empty the average is a finite float within 100..5000
    and every record counts as having skills. *)
Theorem get_stats_on_reachable (w : env) (s : state) :
  reachable w s ->
  profiles s <> [] ->
  exists average,
    get_stats w s
    = (Ok [ ("total_profiles", VInt (Z.of_nat (length (profiles s))));
            ("average_connections", VFloat (FFinite average));
            ("total_skills_fields", VInt (Z.of_nat (length (profiles s)))) ],
       s)
    /\ (100 <= average /\ average <= 5000)%Q.
Proof.
  intros Hreach Hne. apply reachable_simulated in Hreach.
  destruct (simulated_metric_range _ Hreach) as (Hshape & Htags & _).
  destruct (simulated_average _ Hne Hreach) as (average & Havg & Hrange).
  rewrite (get_stats_records w s average Hne Hshape Havg), Htags.
  exists average. split; [reflexivity | exact Hrange].
Qed.

Lemma get_stats_on_reachable_witness :
  let s := run_operation (OpScrape ["a/in/b"; "c"]) demo_env
             (snd (init "out.csv" (whole 2) (whole 5) demo_env (boot ∅))) in
  exists average,
    get_stats demo_env s
    = (Ok [ ("total_profiles", VInt (Z.of_nat (length (profiles s))));
            ("average_connections", VFloat (FFinite average));
            ("total_skills_fields", VInt (Z.of_nat (length (profiles s)))) ],
       s)
    /\ (100 <= average /\ average <= 5000)%Q.
Proof.
  cbv zeta.
  apply (get_stats_on_reachable demo_env
           (run_operation (OpScrape ["a/in/b"; "c"]) demo_env
              (snd (init "out.csv" (whole 2) (whole 5) demo_env (boot ∅))))).
  - apply reachable_step, reachable_init.
  - vm_compute. discriminate.
Defined.

(** ** Edge cases of the statistics *)

Lemma py_sum_countable (ps : list dict) :
  forallb connections_countable ps = true ->
  forall acc,
    py_sum_from (VInt acc) (map get_connections ps)
    = Ok (VInt (acc + total_primary_metric ps)).
Proof.
  unfold total_primary_metric.
  induction ps as [|p ps IH]; intros Hall acc; cbn [map py_sum_from fold_right].
  - now rewrite Z.add_0_r.
  - cbn [forallb] in Hall. apply andb_prop in Hall as [Hp Hps].
    assert (Hhead : get_connections p = VInt (primary_metric p)).
    { unfold get_connections, primary_metric, connections_countable in *.
      destruct (dict_get p "connections") as [[| n |] |];
        try discriminate; reflexivity. }
    rewrite Hhead. cbn [py_add]. rewrite (IH Hps). now rewrite Z.add_assoc.
Qed.

(** A record without [connections] counts as zero in the sum but still
    counts in the number of records the sum is divided by: when the quotient
    is within the range of a float, the average is the double nearest to the
    sum of the [connections] present divided by the number of all records.
    The number of records with skills never exceeds the number of records. *)
Theorem get_stats_missing_connections (w : env) (s : state) :
  profiles s <> [] ->
  forallb connections_countable (profiles s) = true ->
  (Qabs (mean_primary_metric (profiles s)) <= inject_Z (2 ^ 1023))%Q ->
  exists skills average,
    get_stats w s
    = (Ok [ ("total_profiles", VInt (Z.of_nat (length (profiles s))));
            ("average_connections", VFloat (FFinite average));
            ("total_skills_fields", VInt (Z.of_nat skills)) ],
       s)
    /\ FFinite average = round_double (mean_primary_metric (profiles s))
    /\ skills <= length (profiles s).
Proof.
  intros Hne Hall Hrange.
  pose proof (quotient_is_mean _ Hne) as Hmean.
  destruct (FloatFacts.round_double_finite _ Hrange) as [average Havg].
  pose proof Havg as Hquot.
  rewrite <- (FloatFacts.round_double_proper _ _ Hmean) in Hquot.
  exists (count_skills (profiles s)), average.
  split; [| split; [now rewrite Havg |]].
  - run_monad.
    destruct (profiles s) as [|p ps] eqn:Hps; [congruence |].
    unfold py_sum. rewrite (py_sum_countable _ Hall 0%Z), Z.add_0_l.
    cbn [py_truediv length] in *. rewrite Hquot. reflexivity.
  - unfold count_skills. apply length_filter.
Qed.

Lemma get_stats_missing_connections_witness :
  let s := set_profiles [ [("connections", VInt 100)];
                          [("profile_url", VStr "b")] ] demo_state in
  exists skills average,
    get_stats demo_env s
    = (Ok [ ("total_profiles", VInt 2);
            ("average_connections", VFloat (FFinite average));
            ("total_skills_fields", VInt (Z.of_nat skills)) ],
       s)
    /\ FFinite average = whole 50
    /\ skills <= 2.
Proof.
  cbv zeta.
  destruct (get_stats_missing_connections demo_env
              (set_profiles [ [("connections", VInt 100)];
                              [("profile_url", VStr "b")] ] demo_state))
    as (skills & average & Hrun & Havg & Hskills);
    [discriminate | reflexivity | vm_compute; discriminate |].
  exists skills, average.
  split; [exact Hrun | split; [| exact Hskills]].
  rewrite Havg. vm_compute. reflexivity.
Defined.

Lemma py_sum_from_text (values : list pyval) (t : string) :
  In (VStr t) values ->
  Forall (fun v => match v with VFloat _ => False | _ => True end) values ->
  forall acc : Z, exists msg,
    py_sum_from (VInt acc) values = Raise (TypeError msg).
Proof.
  induction values as [|v values IH]; intros Hin Hall acc; [destruct Hin |].
  apply Forall_cons_1 in Hall as [Hv Hall].
  cbn [py_sum_from].
  destruct v as [t' | n | x]; [| | destruct Hv].
  - cbn. eauto.
  - cbn [py_add]. destruct Hin as [Heq | Hin]; [discriminate |].
    now apply IH.
Qed.

(** [get_stats] has no handler of its own: in a collection whose
    [connections] are integers, texts or missing, a record whose
    [connections] is a text makes the sum, and with it the call, raise
    [TypeError]; the state is left as it was. *)
Theorem get_stats_text_connections_raises
    (w : env) (s : state) (p : dict) (t : string) :
  In p (profiles s) ->
  dict_get p "connections" = Some (VStr t) ->
  forallb connections_not_float (profiles s) = true ->
  exists msg, get_stats w s = (Raise (TypeError msg), s).
Proof.
  intros Hin Hget Hall. run_monad.
  destruct (profiles s) as [|p0 ps] eqn:Hps; [destruct Hin |].
  assert (Hv : In (VStr t) (map get_connections (p0 :: ps))).
  { apply in_map_iff. exists p. split; [| exact Hin].
    unfold get_connections. now rewrite Hget. }
  assert (Hnf : Forall (fun v => match v with VFloat _ => False | _ => True end)
                       (map get_connections (p0 :: ps))).
  { apply List.Forall_forall. intros v Hvin.
    apply in_map_iff in Hvin as (q & <- & Hq).
    rewrite forallb_forall in Hall. specialize (Hall q Hq).
    unfold connections_not_float, get_connections in *.
    destruct (dict_get q "connections") as [[| |] |];
      cbn; try exact I; discriminate. }
  destruct (py_sum_from_text _ _ Hv Hnf 0%Z) as [msg Hsum].
  unfold py_sum. rewrite Hsum. now exists msg.
Qed.

Lemma get_stats_text_connections_raises_witness :
  let s := set_profiles [ [("connections", VInt 100)];
                          [("connections", VStr "many")] ] demo_state in
  exists msg, get_stats demo_env s = (Raise (TypeError msg), s).
Proof.
  cbv zeta.
  apply (get_stats_text_connections_raises demo_env _
           [("connections", VStr "many")] "many");
    [right; left; reflexivity | reflexivity | reflexivity].
Defined.

(** ** What the exporters write *)

Lemma simulated_keys (ps : list dict) :
  Forall simulated_record ps ->
  Forall (fun d => dict_keys d = field_names) ps.
Proof.
  intros Hsim. eapply Forall_impl; [exact Hsim |].
  intros r (url & d & ->). reflexivity.
Qed.

Lemma field_names_distinct : List.NoDup field_names.
Proof.
  unfold field_names. repeat constructor; cbn; intuition discriminate.
Qed.


(** The state a successful CSV export of simulated records leaves. *)
Lemma save_to_csv_simulated_run (w : env) (s : state) :
  Forall simulated_record (profiles s) ->
  profiles s <> [] ->
  disk w (output_csv s) = IoOk ->
  save_to_csv w s
  = (Ok (Some (output_csv s)),
     set_log (log s ++ [(INFO, MsgSaved (output_csv s))])
       (set_files (<[output_csv s :=
                       CsvDocument field_names (map record_cells (profiles s))]>
                     (files s)) s)).
Proof.
  intros Hsim Hne Hdisk. run_monad.
  destruct (profiles s) as [|p ps] eqn:Hps; [congruence |].
  assert (Hkeys : dict_keys p = field_names).
  { inversion Hsim as [|? ? (url & d & ->) _]. reflexivity. }
  rewrite Hkeys.
  rewrite (writerows_same_keys field_names (p :: ps) field_names_distinct
             (simulated_keys _ Hsim)).
  rewrite Hdisk. reflexivity.
Qed.

Lemma save_to_json_run_ok (filename : string) (w : env) (s : state) :
  profiles s <> [] ->
  disk w filename = IoOk ->
  save_to_json filename w s
  = (Ok (Some filename),
     set_log (log s ++ [(INFO, MsgSaved filename)])
       (set_files (<[filename := JsonDocument (profiles s)]> (files s)) s)).
Proof.
  intros Hne Hdisk. run_monad.
  destruct (profiles s) as [|p ps] eqn:Hps; [congruence |].
  rewrite Hdisk. reflexivity.
Qed.






(** Apart from the log file [scraper.log], to which the logging calls
    append, no operation touches a file other than the one it exports to;
    the operations that export nothing leave every other file alone. *)
Theorem operations_touch_only_their_target
    (o : operation) (w : env) (s : state) (path : string) :
  export_target o s <> Some path ->
  path <> log_file ->
  files (run_operation o w s) !! path = files s !! path.
Proof.
  intros Hother _. destruct o as [url | urls | | filename |];
    cbn [run_operation export_target] in *.
  - destruct (simulate_profile_data_profiles url w s)
      as (r & s' & Hrun & _ & _ & _ & _ & _ & _ & Hf & _).
    rewrite Hrun. cbn [snd]. now rewrite Hf.
  - destruct (scrape_profiles_run urls w s)
      as (s' & Hrun & _ & _ & _ & _ & _ & Hf & _).
    rewrite Hrun. cbn [snd]. now rewrite Hf.
  - assert (Hne : output_csv s <> path) by congruence.
    run_monad. destruct (profiles s) as [|p ps]; [reflexivity |].
    destruct (writerows (dict_keys p) (p :: ps)) as [written failure].
    destruct (disk w (output_csv s)); [destruct failure |..];
      cbn [snd files set_log set_files];
      try reflexivity; now apply lookup_insert_ne.
  - assert (Hne : filename <> path) by congruence.
    run_monad. destruct (profiles s) as [|p ps]; [reflexivity |].
    destruct (disk w filename); cbn [snd files set_log set_files];
      try reflexivity; now apply lookup_insert_ne.
  - destruct (get_stats_reads_only w s) as [r Hr].
    now rewrite (Hr w s eq_refl).
Qed.

Lemma operations_touch_only_their_target_witness :
  let s := set_files {[ "notes.txt" := PartialDocument ]}
             (set_profiles two_records demo_state) in
  files (run_operation OpSaveCsv demo_env s) !! "notes.txt"
  = Some PartialDocument.
Proof.
  cbv zeta.
  rewrite (operations_touch_only_their_target OpSaveCsv demo_env _ "notes.txt");
    [reflexivity | discriminate | discriminate].
Defined.

(** ** The script on a writable disk *)

(** With at least one identifier, [requests] installed and a disk on which
    the log file and both export paths can be written, the script leaves the
    two export files holding the collection, one record per identifier and
    in input order: the JSON file holds the records, the CSV file the twelve
    field names and one row of texts per record.  It reports both paths in
    its summary; [scraper.log] exists, and every other file is as the script
    found it. *)
Theorem main_writes_both_files
    (urls : list string) (w : env) (disk0 : gmap string file_content) :
  urls <> [] ->
  requests_installed w = true ->
  disk w log_file <> IoOpenFails ->
  disk w "profiles.csv" = IoOk ->
  disk w "profiles.json" = IoOk ->
  exists s' records total average,
    main urls w (boot disk0) = (Ok tt, s')
    /\ profiles s' = records
    /\ map (fun record => dict_get record "profile_url") records
       = map (fun url => Some (VStr url)) urls
    /\ files s' !! "profiles.csv"
       = Some (CsvDocument field_names (map record_cells records))
    /\ files s' !! "profiles.json" = Some (JsonDocument records)
    /\ files s' !! log_file = Some LogFile
    /\ (forall path,
          path <> "profiles.csv" -> path <> "profiles.json" ->
          path <> log_file ->
          files s' !! path = disk0 !! path)
    /\ stdout s' = [ OutBanner; OutTotal total; OutAverage average; OutSavedTo;
                     OutCsv (Some "profiles.csv"); OutJson (Some "profiles.json");
                     OutNoteSimulated; OutNoteToS ].
Proof.
  intros Hne Hreq Hlog Hcsv_ok Hjson_ok.
  pose (s0 := started disk0).
  destruct (scrape_profiles_run urls w s0)
    as (s1 & Hscrape & Hps1 & _ & _ & _ & Hout1 & Hf1 & Hstd1).
  cbn [s0 started profiles app output_csv files stdout]
    in Hscrape, Hps1, Hout1, Hf1, Hstd1.
  fold (started disk0) in Hscrape, Hps1. fold s0 in Hscrape, Hps1.
  assert (Hsim : Forall simulated_record (profiles s1)).
  { rewrite Hps1. apply outcomes_simulated. }
  destruct (outcomes_default_delays urls w s0 eq_refl eq_refl) as [Hlen Hmap].
  assert (Hne1 : profiles s1 <> []).
  { rewrite Hps1. intros Hnil. rewrite Hnil in Hlen.
    destruct urls; [exact (Hne eq_refl) | cbn [length] in Hlen; lia]. }
  rewrite <- Hout1 in Hcsv_ok.
  pose proof (save_to_csv_simulated_run w s1 Hsim Hne1 Hcsv_ok) as Hcsv.
  rewrite Hout1 in Hcsv.
  set (s2 := set_log (log s1 ++ [(INFO, MsgSaved "profiles.csv")])
               (set_files (<["profiles.csv" :=
                               CsvDocument field_names
                                 (map record_cells (profiles s1))]> (files s1)) s1))
    in Hcsv.
  assert (Hne2 : profiles s2 <> []) by exact Hne1.
  pose proof (save_to_json_run_ok default_json_filename w s2 Hne2 Hjson_ok)
    as Hjson.
  set (s3 := set_log (log s2 ++ [(INFO, MsgSaved default_json_filename)])
               (set_files (<[default_json_filename :=
                               JsonDocument (profiles s2)]> (files s2)) s2))
    in Hjson.
  assert (Hps3 : profiles s3 = profiles s1) by reflexivity.
  destruct (simulated_metric_range _ Hsim) as (Hshape & _ & _).
  destruct (simulated_average _ Hne1 Hsim) as (average & Havg & _).
  pose proof (get_stats_records w s3 average Hne1 Hshape Havg) as Hstats.
  eexists _, (profiles s1), _, _.
  split.
  { rewrite (main_starts urls w disk0 Hreq Hlog). fold s0.
    rewrite (bind_ok _ _ _ _ _ _ Hscrape).
    rewrite (bind_ok _ _ _ _ _ _ Hcsv).
    rewrite (bind_ok _ _ _ _ _ _ Hjson).
    rewrite (bind_ok _ _ _ _ _ _ Hstats).
    rewrite print_summary_run. reflexivity. }
  cbn [profiles files stdout set_stdout].
  split; [reflexivity |].
  split; [now rewrite Hps1 |].
  change (files s3)
    with (<[default_json_filename := JsonDocument (profiles s1)]>
            (<["profiles.csv" :=
                 CsvDocument field_names (map record_cells (profiles s1))]>
               (files s1))).
  rewrite Hf1.
  split; [| split; [| split; [| split]]].
  - rewrite lookup_insert_ne by discriminate. apply lookup_insert_eq.
  - apply lookup_insert_eq.
  - rewrite !lookup_insert_ne by discriminate. apply lookup_insert_eq.
  - intros path Hp1 Hp2 Hp3.
    rewrite lookup_insert_ne by (unfold default_json_filename; congruence).
    rewrite !lookup_insert_ne by congruence. reflexivity.
  - change (stdout s3) with (stdout s1). rewrite Hstd1. reflexivity.
Qed.

Lemma main_writes_both_files_witness :
  exists s' records total average,
    main sample_profiles demo_env (boot ∅) = (Ok tt, s')
    /\ profiles s' = records
    /\ map (fun record => dict_get record "profile_url") records
       = map (fun url => Some (VStr url)) sample_profiles
    /\ files s' !! "profiles.csv"
       = Some (CsvDocument field_names (map record_cells records))
    /\ files s' !! "profiles.json" = Some (JsonDocument records)
    /\ files s' !! log_file = Some LogFile
    /\ (forall path,
          path <> "profiles.csv" -> path <> "profiles.json" ->
          path <> log_file ->
          files s' !! path = (∅ : gmap string file_content) !! path)
    /\ stdout s' = [ OutBanner; OutTotal total; OutAverage average; OutSavedTo;
                     OutCsv (Some "profiles.csv"); OutJson (Some "profiles.json");
                     OutNoteSimulated; OutNoteToS ].
Proof.
  apply (main_writes_both_files sample_profiles demo_env ∅);
    [discriminate | reflexivity | discriminate | reflexivity | reflexivity].
Defined.

(** ** The request headers and the retry policy *)



(** [add_rate_limiting] mounts the adapter with the retry policy of the
    source (three retries, on 429 and the 5xx listed, backoff factor 1) on
    both schemes, leaves every other prefix of the session as it was, and
    applying it again changes nothing. *)
Theorem add_rate_limiting_mounts
    (session : gmap string adapter) (prefix : string) :
  add_rate_limiting session !! "http://" = Some (HTTPAdapter retry_strategy)
  /\ add_rate_limiting session !! "https://" = Some (HTTPAdapter retry_strategy)
  /\ (prefix <> "http://" -> prefix <> "https://" ->
      add_rate_limiting session !! prefix = session !! prefix)
  /\ add_rate_limiting (add_rate_limiting session) = add_rate_limiting session
  /\ retry_total retry_strategy = 3%Z
  /\ status_forcelist retry_strategy = [429; 500; 502; 503; 504]%Z.
Proof.
  unfold add_rate_limiting, session_mount. cbv zeta.
  split; [| split; [| split; [| split]]].
  - rewrite lookup_insert_ne by discriminate. apply lookup_insert_eq.
  - apply lookup_insert_eq.
  - intros H1 H2. rewrite !lookup_insert_ne by congruence. reflexivity.
  - apply map_eq. intros k. rewrite !lookup_insert.
    repeat case_decide; reflexivity.
  - split; reflexivity.
Qed.

Lemma add_rate_limiting_mounts_witness :
  add_rate_limiting {[ "ftp://" := HTTPAdapter (mkRetry 0 [] [] 0) ]} !! "ftp://"
  = Some (HTTPAdapter (mkRetry 0 [] [] 0)).
Proof.
  destruct (add_rate_limiting_mounts
              {[ "ftp://" := HTTPAdapter (mkRetry 0 [] [] 0) ]} "ftp://")
    as (_ & _ & H & _).
  rewrite H; [reflexivity | discriminate | discriminate].
Defined.
